(** * Page tools: a shallow embedding of the PDF page utilities

    The development follows the five Python tools under [_process/tools]:
    [split_pdf.py], [merge_pages.py], [extract_first_pages.py],
    [compute_content_hash.py] and [pdf_stats.py].

    Modelling conventions.
    - A Python [str] is a [string]; a character is a code point below 256.
    - A Python [int] is a [Z].
    - A [pathlib.Path] is its normalised string; [/] is [Path.join].
    - The file system is an ordered list of entries (path, node).  The order
      of the list is the order in which the operating system enumerates a
      directory; two lists that are permutations of each other hold the same
      directory contents.
    - A PDF file is the list of its pages; a page carries an opaque body and
      the text PyPDF2 extracts from it.  Failures of the PDF codec on a
      damaged file and failures of the operating system (permissions, full
      disk) are outside the model: creating a directory and writing a file
      always succeed.
    - A raised exception is the [Err] branch of [result]. *)

From Stdlib Require Import ZArith NArith List Bool Lia Permutation FinFun.
From Stdlib Require Import Strings.String Strings.Ascii.
From Stdlib Require Import Numbers.DecimalString Numbers.DecimalN.
From Stdlib Require Import Floats.SpecFloat.
Import ListNotations.

Open Scope string_scope.
Open Scope Z_scope.

(* ================================================================== *)
(** ** Exceptions and results *)

Inductive exn : Type :=
| FileNotFoundError (msg : string)
| ValueError (msg : string)
| IndexError (msg : string)
| IsADirectoryError (msg : string).

Inductive result (A : Type) : Type :=
| Ok (a : A)
| Err (e : exn).

Arguments Ok {A} a.
Arguments Err {A} e.

Definition bind {A B : Type} (r : result A) (k : A -> result B) : result B :=
  match r with
  | Ok a => k a
  | Err e => Err e
  end.

Notation "x <- r ;; k" := (bind r (fun x => k))
  (at level 61, r at next level, right associativity).

(* ================================================================== *)
(** ** Strings *)

Module Str.

Fixpoint all (p : ascii -> bool) (s : string) : bool :=
  match s with
  | EmptyString => true
  | String c s' => p c && all p s'
  end.

Fixpoint repeat (c : ascii) (n : nat) : string :=
  match n with
  | O => EmptyString
  | S n' => String c (repeat c n')
  end.

(** [s.startswith(p)] together with the remainder of [s]. *)
Fixpoint strip_prefix (p s : string) : option string :=
  match p, s with
  | EmptyString, _ => Some s
  | String a p', String b s' =>
      if Ascii.eqb a b then strip_prefix p' s' else None
  | String _ _, EmptyString => None
  end.

(** [s.rfind(c)]: the index of the last occurrence. *)
Fixpoint rfind (c : ascii) (s : string) : option nat :=
  match s with
  | EmptyString => None
  | String a s' =>
      match rfind c s' with
      | Some i => Some (S i)
      | None => if Ascii.eqb a c then Some O else None
      end
  end.

Fixpoint take (n : nat) (s : string) : string :=
  match n, s with
  | S n', String c s' => String c (take n' s')
  | _, _ => EmptyString
  end.

Fixpoint drop (n : nat) (s : string) : string :=
  match n, s with
  | S n', String _ s' => drop n' s'
  | _, _ => s
  end.

Definition lower_char (c : ascii) : ascii :=
  let n := nat_of_ascii c in
  if (Nat.leb 65 n && Nat.leb n 90)%bool then ascii_of_nat (n + 32) else c.

(** [s.lower()] on the ASCII letters; the only comparison made with the
    result is against [".pdf"], which no other lower-casing can produce. *)
Fixpoint lower (s : string) : string :=
  match s with
  | EmptyString => EmptyString
  | String c s' => String (lower_char c) (lower s')
  end.

Definition is_digit (c : ascii) : bool :=
  let n := nat_of_ascii c in (Nat.leb 48 n && Nat.leb n 57)%bool.

End Str.

(* ================================================================== *)
(** ** Formatting integers *)

(** [str(n)] / [f"{n}"] for a Python int. *)
Definition str_of_int (n : Z) : string := NilZero.string_of_int (Z.to_int n).

(** [f"{n:04d}"]: sign-aware zero padding to a total width of four. *)
Definition format_04d (n : Z) : string :=
  if n <? 0 then
    let d := NilZero.string_of_uint (N.to_uint (Z.abs_N n)) in
    String "-" (Str.repeat "0" (3 - String.length d)) ++ d
  else
    let d := NilZero.string_of_uint (N.to_uint (Z.abs_N n)) in
    Str.repeat "0" (4 - String.length d) ++ d.

(** [range(lo, hi)] *)
Definition range (lo hi : Z) : list Z :=
  map (fun i => lo + Z.of_nat i) (seq 0 (Z.to_nat (hi - lo))).

(* ================================================================== *)
(** ** Paths *)

Module Path.

Definition sep : ascii := "/"%char.

(** [Path(p).name]: the last component. *)
Definition name (p : string) : string :=
  match Str.rfind sep p with
  | Some i => Str.drop (S i) p
  | None => p
  end.

(** The index [i] of the last dot of the name when [0 < i < len(name) - 1]. *)
Definition suffix_index (nm : string) : option nat :=
  match Str.rfind "."%char nm with
  | Some i =>
      if (Nat.ltb 0 i && Nat.ltb i (String.length nm - 1))%bool
      then Some i else None
  | None => None
  end.

(** [Path(p).suffix] *)
Definition suffix (p : string) : string :=
  let nm := name p in
  match suffix_index nm with
  | Some i => Str.drop i nm
  | None => EmptyString
  end.

(** [Path(p).stem] *)
Definition stem (p : string) : string :=
  let nm := name p in
  match suffix_index nm with
  | Some i => Str.take i nm
  | None => nm
  end.

(** [str(Path(p).parent)] *)
Definition parent (p : string) : string :=
  match Str.rfind sep p with
  | Some O => "/"
  | Some i => Str.take i p
  | None => "."
  end.

(** What precedes a child's name in [str(d / child)]. *)
Definition dir_prefix (d : string) : string :=
  if String.eqb d "." then EmptyString
  else if String.eqb d "/" then "/"
  else d ++ "/".

(** [str(d / child)] for a single-component [child]. *)
Definition join (d child : string) : string := dir_prefix d ++ child.

(** The name under which path [p] is listed in directory [d], if [p] is
    directly inside [d]. *)
Definition child_of (d p : string) : option string :=
  match Str.strip_prefix (dir_prefix d) p with
  | Some nm =>
      match nm with
      | EmptyString => None
      | _ => if Str.all (fun c => negb (Ascii.eqb c sep)) nm
             then Some nm else None
      end
  | None => None
  end.

End Path.

(* ================================================================== *)
(** ** Documents and the file system *)

Record Page : Type := mkPage {
  page_body : string;            (* the opaque page object *)
  page_text : option string      (* what [extract_text()] returns *)
}.

Definition Document : Type := list Page.

Inductive node : Type :=
| Dir
| File (doc : Document).

(** Entries in the order the operating system enumerates them. *)
Definition FS : Type := list (string * node).

Module Fs.

Fixpoint lookup (fs : FS) (p : string) : option node :=
  match fs with
  | [] => None
  | (q, n) :: fs' => if String.eqb q p then Some n else lookup fs' p
  end.

(** [Path(p).exists()] *)
Definition exists_ (fs : FS) (p : string) : bool :=
  (String.eqb p "." || String.eqb p "/"
   || match lookup fs p with Some _ => true | None => false end)%bool.

(** [open(p, 'rb')] followed by [PyPDF2.PdfReader(f)]; called only after
    [exists_] has been checked by the tools. *)
Definition read_pdf (fs : FS) (p : string) : result Document :=
  match lookup fs p with
  | Some (File doc) => Ok doc
  | Some Dir => Err (IsADirectoryError p)
  | None => Err (FileNotFoundError p)
  end.

(** Replace the node at [p], or add a new entry if there is none. *)
Fixpoint put (fs : FS) (p : string) (n : node) : FS :=
  match fs with
  | [] => [(p, n)]
  | (q, m) :: fs' =>
      if String.eqb q p then (q, n) :: fs' else (q, m) :: put fs' p n
  end.

(** [open(p, 'wb')] followed by [writer.write(out)]. *)
Definition write_pdf (fs : FS) (p : string) (doc : Document) : FS :=
  put fs p (File doc).

(** [d.mkdir(parents=True, exist_ok=True)]: the missing ancestors are
    created first, then [d] itself. *)
Fixpoint mkdir_fuel (fuel : nat) (fs : FS) (d : string) : FS :=
  if exists_ fs d then fs
  else
    match fuel with
    | O => (fs ++ [(d, Dir)])%list
    | S fuel' => (mkdir_fuel fuel' fs (Path.parent d) ++ [(d, Dir)])%list
    end.

Definition mkdir (fs : FS) (d : string) : FS :=
  mkdir_fuel (String.length d) fs d.

(** The names directly inside [d], in enumeration order. *)
Fixpoint listdir (fs : FS) (d : string) : list string :=
  match fs with
  | [] => []
  | (p, _) :: fs' =>
      match Path.child_of d p with
      | Some nm => nm :: listdir fs' d
      | None => listdir fs' d
      end
  end.

End Fs.

(* ================================================================== *)
(** ** Shell-style patterns

    [Path.glob] compiles one pattern component with [fnmatch.translate] and
    keeps the directory entries whose whole name matches. *)

Module Fnmatch.

Inductive item : Type :=
| One (c : ascii)
| Span (lo hi : ascii).

Inductive tok : Type :=
| TStar                                   (* [*] *)
| TAny                                    (* [?] *)
| TSet (negated : bool) (items : list item)  (* [[...]] and [[!...]] *)
| TLit (c : ascii).

(** The text before the first closing bracket, and the text after it. *)
Fixpoint split_close (s : string) : option (string * string) :=
  match s with
  | EmptyString => None
  | String c s' =>
      if Ascii.eqb c "]" then Some (EmptyString, s')
      else match split_close s' with
           | Some (body, rest) => Some (String c body, rest)
           | None => None
           end
  end.

(** The body of a bracket expression: [lo-hi] is a span unless the hyphen
    is the first or the last character. *)
Fixpoint items_of (body : string) : list item :=
  match body with
  | EmptyString => []
  | String lo (String "-" (String hi rest)) => Span lo hi :: items_of rest
  | String c rest => One c :: items_of rest
  end.

(** What follows an opening bracket: the negation mark, the body (a
    closing bracket in first position belongs to the body) and the rest of
    the pattern; [None] when the bracket is never closed. *)
Definition bracket (r : string) : option (bool * string * string) :=
  let '(neg, r1) :=
    match r with
    | String "!" r' => (true, r')
    | _ => (false, r)
    end in
  match r1 with
  | String "]" r2 =>
      match split_close r2 with
      | Some (body, rest) => Some (neg, String "]" body, rest)
      | None => None
      end
  | _ =>
      match split_close r1 with
      | Some (body, rest) => Some (neg, body, rest)
      | None => None
      end
  end.

Fixpoint translate_fuel (fuel : nat) (pat : string) : list tok :=
  match fuel with
  | O => []
  | S fuel' =>
      match pat with
      | EmptyString => []
      | String c r =>
          if Ascii.eqb c "*" then TStar :: translate_fuel fuel' r
          else if Ascii.eqb c "?" then TAny :: translate_fuel fuel' r
          else if Ascii.eqb c "[" then
            match bracket r with
            | Some (neg, body, rest) =>
                TSet neg (items_of body) :: translate_fuel fuel' rest
            | None => TLit c :: translate_fuel fuel' r
            end
          else TLit c :: translate_fuel fuel' r
      end
  end.

Definition translate (pat : string) : list tok :=
  translate_fuel (String.length pat) pat.

Definition in_item (c : ascii) (it : item) : bool :=
  match it with
  | One a => Ascii.eqb a c
  | Span lo hi =>
      (Nat.leb (nat_of_ascii lo) (nat_of_ascii c)
       && Nat.leb (nat_of_ascii c) (nat_of_ascii hi))%bool
  end.

Definition match_one (t : tok) (c : ascii) : bool :=
  match t with
  | TStar => true
  | TAny => true
  | TSet neg items => xorb neg (existsb (in_item c) items)
  | TLit a => Ascii.eqb a c
  end.

(** Whole-string match of a token list. *)
Fixpoint match_toks (ts : list tok) : string -> bool :=
  match ts with
  | [] => fun s => match s with EmptyString => true | _ => false end
  | TStar :: ts' =>
      fix star (s : string) : bool :=
        (match_toks ts' s
         || match s with
            | EmptyString => false
            | String _ s' => star s'
            end)%bool
  | t :: ts' =>
      fun s =>
        match s with
        | EmptyString => false
        | String c s' => (match_one t c && match_toks ts' s')%bool
        end
  end.

Definition fnmatch (pat name : string) : bool :=
  match_toks (translate pat) name.

End Fnmatch.

(** [list(d.glob(pattern))]: the matching entries of [d], in enumeration
    order, each as the path [d / name]. *)
Definition glob (fs : FS) (d pattern : string) : list string :=
  map (Path.join d) (filter (Fnmatch.fnmatch pattern) (Fs.listdir fs d)).

(* ================================================================== *)
(** ** merge_pages.py: resolving a page range *)

Definition truthy (s : option string) : bool :=
  match s with
  | Some (String _ _) => true
  | _ => false
  end.

(** The pattern built for one page number (lines 84-87). *)
Definition page_pattern (stem_pattern : option string) (page_num : Z) : string :=
  match stem_pattern with
  | Some (String c s) => String c s ++ "-page-" ++ format_04d page_num ++ ".pdf"
  | _ => "*-page-" ++ format_04d page_num ++ ".pdf"
  end.

Definition page_not_found (page_num : Z) (pattern : string) : exn :=
  FileNotFoundError
    ("Page file not found for page " ++ str_of_int page_num
     ++ " with pattern " ++ pattern).

(** The body of the [for page_num in range(start, end + 1)] loop, with the
    list [page_files] built so far. *)
Fixpoint pages_loop (fs : FS) (pages_dir : string) (stem_pattern : option string)
    (nums : list Z) (page_files : list string) : result (list string) :=
  match nums with
  | [] => Ok page_files
  | page_num :: nums' =>
      let pattern := page_pattern stem_pattern page_num in
      match glob fs pages_dir pattern with
      | [] => Err (page_not_found page_num pattern)
      | m :: _ =>
          pages_loop fs pages_dir stem_pattern nums' (page_files ++ [m])%list
      end
  end.

Definition get_pages_from_dir (fs : FS) (pages_dir : string) (start end_ : Z)
    (stem_pattern : option string) : result (list string) :=
  if negb (Fs.exists_ fs pages_dir) then
    Err (FileNotFoundError ("Pages directory not found: " ++ pages_dir))
  else
    pages_loop fs pages_dir stem_pattern (range start (end_ + 1)) [].

(** [parse_range]: [re.match(r'^(\d+)-(\d+)$', range_str)].  A greedy run of
    digits is the only way [\d+] can be followed by a hyphen, respectively by
    the end of the string; [$] matches at the end of the string and also just
    before a line feed that ends the string. *)
Module Re.

Fixpoint span_digits (s : string) : string * string :=
  match s with
  | String c s' =>
      if Str.is_digit c then
        let '(d, r) := span_digits s' in (String c d, r)
      else (EmptyString, s)
  | EmptyString => (EmptyString, EmptyString)
  end.

Definition line_feed : ascii := ascii_of_nat 10.

(** [$] *)
Definition at_end (s : string) : bool :=
  match s with
  | EmptyString => true
  | String c EmptyString => Ascii.eqb c line_feed
  | _ => false
  end.

(** The two groups of a successful match. *)
Definition match_range (s : string) : option (string * string) :=
  let '(g1, r1) := span_digits s in
  match g1, r1 with
  | String _ _, String "-" r2 =>
      let '(g2, r3) := span_digits r2 in
      match g2 with
      | String _ _ => if at_end r3 then Some (g1, g2) else None
      | EmptyString => None
      end
  | _, _ => None
  end.

End Re.

(** [int(s)] on a string of decimal digits. *)
Fixpoint int_of_digits_acc (acc : Z) (s : string) : Z :=
  match s with
  | EmptyString => acc
  | String c s' => int_of_digits_acc (10 * acc + (Z.of_nat (nat_of_ascii c) - 48)) s'
  end.

Definition int_of_digits (s : string) : Z := int_of_digits_acc 0 s.

Definition parse_range (range_str : string) : result (Z * Z) :=
  match Re.match_range range_str with
  | None =>
      Err (ValueError ("Invalid range format: " ++ range_str
                       ++ ". Expected format: START-END (e.g., 1-5)"))
  | Some (g1, g2) => Ok (int_of_digits g1, int_of_digits g2)
  end.

(* ================================================================== *)
(** ** Commands on the file system

    A tool that writes is a function from the file system to the new file
    system and a result; an exception leaves the effects performed before it
    in place. *)

Definition M (A : Type) : Type := FS -> FS * result A.

Definition ret {A : Type} (a : A) : M A := fun fs => (fs, Ok a).

Definition raise {A : Type} (e : exn) : M A := fun fs => (fs, Err e).

Definition bindM {A B : Type} (m : M A) (k : A -> M B) : M B :=
  fun fs =>
    match m fs with
    | (fs', Ok a) => k a fs'
    | (fs', Err e) => (fs', Err e)
    end.

Notation "x <~ m ;; k" := (bindM m (fun x => k))
  (at level 61, m at next level, right associativity).
Notation "m ;;; k" := (bindM m (fun _ => k))
  (at level 61, right associativity).

Definition path_exists (p : string) : M bool :=
  fun fs => (fs, Ok (Fs.exists_ fs p)).

Definition mkdir (d : string) : M unit :=
  fun fs => (Fs.mkdir fs d, Ok tt).

Definition read_pdf (p : string) : M Document :=
  fun fs => (fs, Fs.read_pdf fs p).

Definition write_pdf (p : string) (doc : Document) : M unit :=
  fun fs => (Fs.write_pdf fs p doc, Ok tt).

(** [reader.pages[i]], with Python's negative indices. *)
Definition page_at (doc : Document) (i : Z) : result Page :=
  let n := Z.of_nat (List.length doc) in
  let j := if i <? 0 then i + n else i in
  if (0 <=? j) && (j <? n) then
    match nth_error doc (Z.to_nat j) with
    | Some pg => Ok pg
    | None => Err (IndexError "sequence index out of range")
    end
  else Err (IndexError "sequence index out of range").

Definition lift {A : Type} (r : result A) : M A := fun fs => (fs, r).

(** The two guards that open [split_pdf], [extract_first_pages],
    [compute_content_hash] and [get_pdf_stats]. *)
Definition check_input (fs : FS) (input_path : string) : result unit :=
  if negb (Fs.exists_ fs input_path) then
    Err (FileNotFoundError ("Input file not found: " ++ input_path))
  else if negb (String.eqb (Str.lower (Path.suffix input_path)) ".pdf") then
    Err (ValueError ("Input must be a PDF file, got: " ++ Path.suffix input_path))
  else Ok tt.

(* ================================================================== *)
(** ** split_pdf.py *)

Definition page_file_name (stem : string) (page_num : Z) : string :=
  stem ++ "-page-" ++ format_04d page_num ++ ".pdf".

(** The body of [for i in range(total_pages)], with [output_files] so far. *)
Fixpoint split_loop (doc : Document) (output_dir stem : string)
    (idxs : list Z) (output_files : list string) : M (list string) :=
  match idxs with
  | [] => ret output_files
  | i :: idxs' =>
      pg <~ lift (page_at doc i) ;;
      let page_num := i + 1 in
      let output_path := Path.join output_dir (page_file_name stem page_num) in
      write_pdf output_path [pg] ;;;
      split_loop doc output_dir stem idxs' (output_files ++ [output_path])%list
  end.

Definition split_pdf (input_path output_dir : string) : M (list string) :=
  fun fs =>
    (lift (check_input fs input_path) ;;;
     mkdir output_dir ;;;
     let stem := Path.stem input_path in
     doc <~ read_pdf input_path ;;
     let total_pages := Z.of_nat (List.length doc) in
     split_loop doc output_dir stem (range 0 total_pages) []) fs.

(* ================================================================== *)
(** ** merge_pages.py: merging *)

(** The body of [for page_file in page_files], with the pages added to
    [writer] so far. *)
Fixpoint merge_loop (page_files : list string) (writer : list Page)
  : M (list Page) :=
  match page_files with
  | [] => ret writer
  | page_path :: page_files' =>
      ex <~ path_exists page_path ;;
      if negb ex then
        raise (FileNotFoundError ("Page file not found: " ++ page_path))
      else
        doc <~ read_pdf page_path ;;
        pg <~ lift (page_at doc 0) ;;
        merge_loop page_files' (writer ++ [pg])%list
  end.

Definition merge_pages (output_path : string) (page_files : list string)
  : M string :=
  match page_files with
  | [] => raise (ValueError "No page files provided")
  | _ =>
      mkdir (Path.parent output_path) ;;;
      writer <~ merge_loop page_files [] ;;
      write_pdf output_path writer ;;;
      ret output_path
  end.

(* ================================================================== *)
(** ** extract_first_pages.py *)

(** [for i in range(n): writer.add_page(reader.pages[i])] *)
Fixpoint add_pages (doc : Document) (idxs : list Z) (writer : list Page)
  : result (list Page) :=
  match idxs with
  | [] => Ok writer
  | i :: idxs' =>
      pg <- page_at doc i ;;
      add_pages doc idxs' (writer ++ [pg])%list
  end.

Definition extract_first_pages (input_path output_dir : string) (num_pages : Z)
  : M string :=
  fun fs =>
    (lift (check_input fs input_path) ;;;
     mkdir output_dir ;;;
     let output_path := Path.join output_dir (Path.name input_path) in
     doc <~ read_pdf input_path ;;
     let pages_to_extract := Z.min num_pages (Z.of_nat (List.length doc)) in
     writer <~ lift (add_pages doc (range 0 pages_to_extract) []) ;;
     write_pdf output_path writer ;;;
     ret output_path) fs.

(* ================================================================== *)
(** ** compute_content_hash.py *)

(** [str.encode()]: UTF-8 of the code points below 256. *)
Fixpoint encode (s : string) : list Z :=
  match s with
  | EmptyString => []
  | String c s' =>
      let n := Z.of_nat (nat_of_ascii c) in
      if n <? 128 then n :: encode s'
      else Z.lor 192 (Z.shiftr n 6) :: Z.lor 128 (Z.land n 63) :: encode s'
  end.

(** [hashlib.sha256(data).hexdigest()], after FIPS 180-4; a word is a [Z]
    reduced modulo [2^32]. *)
Module Sha256.

Definition mask : Z := 4294967295.
Definition add32 (a b : Z) : Z := Z.land (a + b) mask.
Definition rotr (n x : Z) : Z :=
  Z.land (Z.lor (Z.shiftr x n) (Z.shiftl x (32 - n))) mask.
Definition xor3 (a b c : Z) : Z := Z.lxor (Z.lxor a b) c.

Definition Ch (x y z : Z) : Z :=
  Z.lxor (Z.land x y) (Z.land (Z.lxor x mask) z).
Definition Maj (x y z : Z) : Z :=
  xor3 (Z.land x y) (Z.land x z) (Z.land y z).
Definition bsig0 (x : Z) : Z := xor3 (rotr 2 x) (rotr 13 x) (rotr 22 x).
Definition bsig1 (x : Z) : Z := xor3 (rotr 6 x) (rotr 11 x) (rotr 25 x).
Definition ssig0 (x : Z) : Z := xor3 (rotr 7 x) (rotr 18 x) (Z.shiftr x 3).
Definition ssig1 (x : Z) : Z := xor3 (rotr 17 x) (rotr 19 x) (Z.shiftr x 10).

(** The constants of FIPS 180-4 are read off the first primes: the first
    32 bits of the fractional part of the cube root (round constants) and of
    the square root (initial hash value). *)
Definition is_prime (n : nat) : bool :=
  forallb (fun d => negb (Nat.eqb (Nat.modulo n d) 0)) (seq 2 (n - 2)).

Definition primes_below (n : nat) : list Z :=
  map Z.of_nat (filter is_prime (seq 2 (n - 2))).

(** The integer cube root, one bit at a time from bit [k - 1] down. *)
Fixpoint cbrt_bits (k : nat) (n r : Z) : Z :=
  match k with
  | O => r
  | S k' =>
      let r' := r + 2 ^ Z.of_nat k' in
      cbrt_bits k' n (if r' * r' * r' <=? n then r' else r)
  end.

Definition frac_cbrt (p : Z) : Z := Z.land (cbrt_bits 40 (p * 2 ^ 96) 0) mask.
Definition frac_sqrt (p : Z) : Z := Z.land (Z.sqrt (p * 2 ^ 64)) mask.

Definition K : list Z := Eval vm_compute in map frac_cbrt (primes_below 312).

Definition H0 : list Z := Eval vm_compute in map frac_sqrt (primes_below 20).

(** [n] as [k] big-endian bytes. *)
Fixpoint be_bytes (k : nat) (n : Z) : list Z :=
  match k with
  | O => []
  | S k' => Z.land (Z.shiftr n (8 * Z.of_nat k')) 255 :: be_bytes k' n
  end.

(** The message followed by the bit [1], zero bits up to 56 modulo 64
    bytes, and the bit length on eight bytes. *)
Definition pad (msg : list Z) : list Z :=
  let len := Z.of_nat (List.length msg) in
  let zeros := Z.to_nat ((55 - len) mod 64) in
  (msg ++ 128 :: List.repeat 0 zeros ++ be_bytes 8 (8 * len))%list.

Fixpoint words (k : nat) (bs : list Z) : list Z :=
  match k, bs with
  | S k', b0 :: b1 :: b2 :: b3 :: bs' =>
      (Z.shiftl b0 24 + Z.shiftl b1 16 + Z.shiftl b2 8 + b3) :: words k' bs'
  | _, _ => []
  end.

Definition at_ (w : list Z) (i : nat) : Z := nth i w 0.

(** The message schedule, extended by [k] words. *)
Fixpoint schedule (k : nat) (w : list Z) : list Z :=
  match k with
  | O => w
  | S k' =>
      let t := List.length w in
      let x := add32 (add32 (ssig1 (at_ w (t - 2))) (at_ w (t - 7)))
                     (add32 (ssig0 (at_ w (t - 15))) (at_ w (t - 16))) in
      schedule k' (w ++ [x])%list
  end.

Definition round (st : list Z) (kw : Z * Z) : list Z :=
  match st with
  | [a; b; c; d; e; f; g; h] =>
      let t1 := add32 (add32 (add32 h (bsig1 e)) (add32 (Ch e f g) (fst kw)))
                      (snd kw) in
      let t2 := add32 (bsig0 a) (Maj a b c) in
      [add32 t1 t2; a; b; c; add32 d t1; e; f; g]
  | _ => st
  end.

Definition compress (h : list Z) (block : list Z) : list Z :=
  let w := schedule 48 (words 16 block) in
  let st := fold_left round (combine K w) h in
  map (fun p => add32 (fst p) (snd p)) (combine h st).

Fixpoint blocks (k : nat) (h : list Z) (bs : list Z) : list Z :=
  match k with
  | O => h
  | S k' => blocks k' (compress h (firstn 64 bs)) (skipn 64 bs)
  end.

Definition digest (msg : list Z) : list Z :=
  let bs := pad msg in
  blocks (List.length bs / 64) H0 bs.

Definition hex_digit (n : Z) : ascii :=
  if n <? 10 then ascii_of_nat (Z.to_nat (48 + n))
  else ascii_of_nat (Z.to_nat (87 + n)).

Fixpoint hex (k : nat) (n : Z) : string :=
  match k with
  | O => EmptyString
  | S k' => String (hex_digit (Z.land (Z.shiftr n (4 * Z.of_nat k')) 15)) (hex k' n)
  end.

Definition hexdigest (msg : list Z) : string :=
  fold_right (fun w acc => hex 8 w ++ acc) EmptyString (digest msg).

End Sha256.

(** [page.extract_text() or ""] *)
Definition text_or_empty (pg : Page) : string :=
  match page_text pg with
  | Some (String c s) => String c s
  | _ => EmptyString
  end.

(** [for i in range(n): text += reader.pages[i].extract_text() or ""] *)
Fixpoint read_text (doc : Document) (idxs : list Z) (text : string)
  : result string :=
  match idxs with
  | [] => Ok text
  | i :: idxs' =>
      pg <- page_at doc i ;;
      read_text doc idxs' (text ++ text_or_empty pg)
  end.

Definition compute_content_hash (fs : FS) (input_path : string) (num_pages : Z)
  : result string :=
  _ <- check_input fs input_path ;;
  doc <- Fs.read_pdf fs input_path ;;
  let pages_to_read := Z.min num_pages (Z.of_nat (List.length doc)) in
  text <- read_text doc (range 0 pages_to_read) EmptyString ;;
  Ok (Sha256.hexdigest (encode text)).

(* ================================================================== *)
(** ** pdf_stats.py *)

(** [str.isspace()] on the code points below 256. *)
Definition is_space (c : ascii) : bool :=
  let n := nat_of_ascii c in
  ((Nat.leb 9 n && Nat.leb n 13) || (Nat.leb 28 n && Nat.leb n 32)
   || Nat.eqb n 133 || Nat.eqb n 160)%bool.

(** [text.split()]: the maximal runs of characters that are not white
    space; [cur] is the run being read. *)
Fixpoint split_ws (cur : string) (s : string) : list string :=
  match s with
  | EmptyString =>
      match cur with EmptyString => [] | _ => [cur] end
  | String c s' =>
      if is_space c then
        match cur with
        | EmptyString => split_ws EmptyString s'
        | _ => cur :: split_ws EmptyString s'
        end
      else split_ws (cur ++ String c EmptyString) s'
  end.

Definition split (text : string) : list string := split_ws EmptyString text.

(** Binary64 arithmetic, from the specification of IEEE 754 in the
    standard library. *)
Module Float.

Definition prec : Z := 53.
Definition emax : Z := 1024.

(** [float(n)] for an int below [2^1024] in absolute value. *)
Definition of_int (n : Z) : spec_float := binary_normalize prec emax n 0 false.

(** The literal [1.3], that is [0x1.4cccccccccccdp+0]. *)
Definition lit_1_3 : spec_float := S754_finite false 5854679515581645 (-52).

Definition mul : spec_float -> spec_float -> spec_float := SFmul prec emax.

(** [int(x)]: truncation towards zero of a finite float. *)
Definition to_int (x : spec_float) : Z :=
  match x with
  | S754_finite s m e =>
      let a := if 0 <=? e then Z.pos m * 2 ^ e else Z.pos m / 2 ^ (- e) in
      if s then - a else a
  | _ => 0
  end.

End Float.

Record Stats : Type := mkStats {
  total_pages : Z;
  pages_analyzed : Z;
  word_count : Z;
  token_estimate : Z
}.

(** [get_pdf_stats]; the two size entries of the dictionary come from
    [os.path.getsize] alone and are left out. *)
Definition get_pdf_stats (fs : FS) (input_path : string) (num_pages : option Z)
  : result Stats :=
  _ <- check_input fs input_path ;;
  doc <- Fs.read_pdf fs input_path ;;
  let total_pages := Z.of_nat (List.length doc) in
  let pages_to_read :=
    match num_pages with
    | None => total_pages
    | Some n => Z.min n total_pages
    end in
  text <- read_text doc (range 0 pages_to_read) EmptyString ;;
  let word_count := Z.of_nat (List.length (split text)) in
  let token_estimate :=
    Float.to_int (Float.mul (Float.of_int word_count) Float.lit_1_3) in
  Ok (mkStats total_pages pages_to_read word_count token_estimate).

(* ================================================================== *)
(** ** pdf_stats.py: the size for the reader

    [get_pdf_stats] turns [file_size_bytes] into a text with the quotients
    [file_size_bytes / 1024] and [file_size_bytes / (1024 * 1024)] printed
    by [:.1f].  A size below [2^53] bytes divided by a power of two is an
    exact binary64 number, and [:.1f] prints the decimal with one fractional
    digit nearest to the exact value, ties to even; so the text is that
    rounding of the exact quotient, computed here on tenths. *)

(** The number of tenths nearest to [n / unit], ties to the even one. *)
Definition nearest_tenths (n unit : Z) : Z :=
  let q := (10 * n) / unit in
  let r := (10 * n) mod unit in
  if 2 * r <? unit then q
  else if unit <? 2 * r then q + 1
  else if Z.even q then q else q + 1.

(** [f"{x:.1f}"] for the number of tenths [t] of a value that is not
    negative. *)
Definition format_1f (t : Z) : string :=
  str_of_int (t / 10) ++ "." ++ str_of_int (t mod 10).

Definition file_size_human (file_size_bytes : Z) : string :=
  if file_size_bytes <? 1024 then str_of_int file_size_bytes ++ " B"
  else if file_size_bytes <? 1024 * 1024 then
    format_1f (nearest_tenths file_size_bytes 1024) ++ " KB"
  else
    format_1f (nearest_tenths file_size_bytes (1024 * 1024)) ++ " MB".

(* ================================================================== *)
(** ** The command entry points

    A [main] is modelled after [argparse] has read the command line: it
    takes the parsed arguments and returns, with the new file system, the
    lines printed on standard output, the lines printed on standard error
    and the exit status.  A [main] that returns normally exits with
    status 0. *)

Record Outcome : Type := mkOutcome {
  out_lines : list string;
  err_lines : list string;
  exit_code : Z
}.

(** [str(e)]; for an error of the operating system the text is
    represented by the path it names. *)
Definition exn_message (e : exn) : string :=
  match e with
  | FileNotFoundError m => m
  | ValueError m => m
  | IndexError m => m
  | IsADirectoryError m => m
  end.

(** The three [except] clauses that close every [main], after the lines
    in [printed] have gone to standard output; [what] is [PDF] or [PDFs]. *)
Definition handle (what : string) (printed : list string) (e : exn) : Outcome :=
  match e with
  | FileNotFoundError m => mkOutcome printed ["Error: " ++ m] 1
  | ValueError m => mkOutcome printed ["Error: " ++ m] 1
  | _ => mkOutcome printed ["Error processing " ++ what ++ ": " ++ exn_message e] 1
  end.

(** [split_pdf.py], [main]: the third line printed reads
    [output_files[0]] and [output_files[-1]]. *)
Definition split_main (input output_dir : string) (fs : FS) : FS * Outcome :=
  match split_pdf input output_dir fs with
  | (fs', Ok output_files) =>
      let printed :=
        ["Split into " ++ str_of_int (Z.of_nat (List.length output_files))
           ++ " pages:";
         "  Directory: " ++ output_dir] in
      match output_files with
      | [] => (fs', handle "PDF" printed (IndexError "list index out of range"))
      | first :: _ =>
          let files := "  Files: " ++ Path.name first ++ " to "
                         ++ Path.name (last output_files first) in
          (fs', mkOutcome (List.app printed [files]) [] 0)
      end
  | (fs', Err e) => (fs', handle "PDF" [] e)
  end.

(** [extract_first_pages.py], [main]. *)
Definition extract_main (input output_dir : string) (pages : Z) (fs : FS)
  : FS * Outcome :=
  match extract_first_pages input output_dir pages fs with
  | (fs', Ok output_path) =>
      (fs', mkOutcome ["Extracted " ++ str_of_int pages ++ " pages to: "
                         ++ output_path] [] 0)
  | (fs', Err e) => (fs', handle "PDF" [] e)
  end.

(** The arguments of [merge_pages.py]. *)
Record MergeArgs : Type := mkMergeArgs {
  arg_output : string;
  arg_pages : list string;
  arg_pages_dir : option string;
  arg_page_range : option string;
  arg_stem : option string
}.

Definition or_empty (s : option string) : string :=
  match s with
  | Some t => t
  | None => EmptyString
  end.

(** The call of [merge_pages] and the line printed after it. *)
Definition merge_and_report (output : string) (page_files : list string) (fs : FS)
  : FS * Outcome :=
  match merge_pages output page_files fs with
  | (fs', Ok output_path) =>
      (fs', mkOutcome ["Merged " ++ str_of_int (Z.of_nat (List.length page_files))
                         ++ " pages into: " ++ output_path] [] 0)
  | (fs', Err e) => (fs', handle "PDFs" [] e)
  end.

(** [merge_pages.py], [main].  [parser.error] prints the usage and the
    message and exits with status 2; only the message is kept here. *)
Definition merge_main (args : MergeArgs) (fs : FS) : FS * Outcome :=
  if (truthy (arg_pages_dir args) && truthy (arg_page_range args))%bool then
    match parse_range (or_empty (arg_page_range args)) with
    | Err e => (fs, handle "PDFs" [] e)
    | Ok (start, end_) =>
        match get_pages_from_dir fs (or_empty (arg_pages_dir args)) start end_
                (arg_stem args) with
        | Err e => (fs, handle "PDFs" [] e)
        | Ok page_files => merge_and_report (arg_output args) page_files fs
        end
    end
  else
    match arg_pages args with
    | _ :: _ => merge_and_report (arg_output args) (arg_pages args) fs
    | [] =>
        (fs, mkOutcome []
               ["error: Provide either page files or --pages-dir with --range"] 2)
    end.

(* ================================================================== *)
(** ** Vocabulary of the statements *)

(** Membership of a path among the entries. *)
Definition has (fs : FS) (p : string) : Prop := In p (map fst fs).

(** Two enumeration orders of one directory holding two first pages. *)
Definition two_stems_ab : FS :=
  [("pages", Dir);
   ("pages/a-page-0001.pdf", File [mkPage "a" None]);
   ("pages/b-page-0001.pdf", File [mkPage "b" None])].

Definition two_stems_ba : FS :=
  [("pages", Dir);
   ("pages/b-page-0001.pdf", File [mkPage "b" None]);
   ("pages/a-page-0001.pdf", File [mkPage "a" None])].

(** A character that is not the path separator. *)
Definition not_sep (c : ascii) : bool := negb (Ascii.eqb c Path.sep).

(** The characters of a printed integer. *)
Definition digit_or_minus (c : ascii) : bool :=
  (Str.is_digit c || Ascii.eqb c "-")%bool.

(** A character that is not a pattern metacharacter. *)
Definition plain_char (c : ascii) : bool :=
  negb (Ascii.eqb c "*" || Ascii.eqb c "?" || Ascii.eqb c "[")%bool.

(** The tokens of a pattern without metacharacters. *)
Fixpoint lits (s : string) : list Fnmatch.tok :=
  match s with
  | EmptyString => []
  | String c s' => Fnmatch.TLit c :: lits s'
  end.

(** The pages the three reading loops fetch one by one. *)
Fixpoint pages_at (doc : Document) (idxs : list Z) : result (list Page) :=
  match idxs with
  | [] => Ok []
  | i :: idxs' =>
      pg <- page_at doc i ;;
      pgs <- pages_at doc idxs' ;;
      Ok (pg :: pgs)
  end.

(** Every path of the list is a file of [fs] whose first page is the
    corresponding element of [firsts]. *)
Definition first_pages (fs : FS) (page_files : list string) (firsts : list Page)
  : Prop :=
  Forall2 (fun p pg => exists rest, Fs.lookup fs p = Some (File (pg :: rest)))
          page_files firsts.

(** Texts joined in order, with nothing between them. *)
Definition concat_texts (texts : list string) : string :=
  fold_right String.append EmptyString texts.

(** The text read from the [k] leading pages. *)
Definition leading_text (doc : Document) (k : Z) : list string :=
  map text_or_empty (firstn (Z.to_nat (Z.min k (Z.of_nat (List.length doc)))) doc).

(** The page count that bounds the analysis: all pages when none is given. *)
Definition requested_pages (doc : Document) (num_pages : option Z) : Z :=
  match num_pages with
  | None => Z.of_nat (List.length doc)
  | Some n => n
  end.

(** What a range token is: two runs of digits around one hyphen. *)
Definition range_token (a b : string) : Prop :=
  a <> EmptyString /\ b <> EmptyString
  /\ Str.all Str.is_digit a = true /\ Str.all Str.is_digit b = true.

(** The ordinal [n] and the path returned for it. *)
Definition resolved (fs : FS) (pages_dir : string) (stem_pattern : option string)
    (n : Z) (p : string) : Prop :=
  exists nm,
    p = Path.join pages_dir nm
    /\ Fnmatch.fnmatch (page_pattern stem_pattern n) nm = true
    /\ exists nd, Fs.lookup fs p = Some nd.

(** The hash of the empty text. *)
Definition empty_digest : string :=
  "e3b0c44298fc1c149afbf4c8996fb92427ae41e4649b934ca495991b7852b855".

(** The words of the pages counted one page at a time. *)
Definition words_per_page (texts : list string) : nat :=
  list_sum (map (fun t => List.length (split t)) texts).

(* ================================================================== *)
(** * Properties *)

(** ** Ranges *)

Lemma range_empty (lo hi : Z) : hi <= lo -> range lo hi = [].
Proof.
  intros H. unfold range.
  replace (Z.to_nat (hi - lo)) with O by lia. reflexivity.
Qed.

Lemma range_cons (lo hi : Z) : lo < hi -> range lo hi = lo :: range (lo + 1) hi.
Proof.
  intros H. unfold range.
  replace (Z.to_nat (hi - lo)) with (S (Z.to_nat (hi - (lo + 1)))) by lia.
  cbn [seq map]. f_equal; [lia|].
  rewrite <- seq_shift, map_map.
  apply map_ext. intros i. lia.
Qed.

Lemma in_range (lo hi n : Z) : In n (range lo hi) <-> lo <= n < hi.
Proof.
  unfold range. rewrite in_map_iff. split.
  - intros (i & <- & Hi). apply in_seq in Hi. lia.
  - intros H. exists (Z.to_nat (n - lo)). split; [lia|].
    apply in_seq. lia.
Qed.

(** ** The directory listing *)

Lemma lookup_has (fs : FS) (p : string) :
  (exists n, Fs.lookup fs p = Some n) <-> has fs p.
Proof.
  unfold has. induction fs as [|[q m] fs IH]; cbn.
  - split; [intros (n & H); discriminate | tauto].
  - destruct (String.eqb_spec q p) as [->|Hne].
    + split; eauto.
    + rewrite IH. split; [tauto | intros [H|H]; [contradiction | exact H]].
Qed.

Lemma exists_iff (fs : FS) (p : string) :
  Fs.exists_ fs p = true <-> p = "." \/ p = "/" \/ has fs p.
Proof.
  unfold Fs.exists_. rewrite !orb_true_iff, !String.eqb_eq, <- lookup_has.
  destruct (Fs.lookup fs p) as [n|].
  - split; intros _; [right; right; eauto | tauto].
  - split; [intros [[H|H]|H]; [tauto | tauto | discriminate]|].
    intros [H|[H|(n & H)]]; [tauto | tauto | discriminate].
Qed.

Lemma has_perm (fs1 fs2 : FS) (p : string) :
  Permutation fs1 fs2 -> has fs1 p -> has fs2 p.
Proof.
  unfold has. intros HP. apply Permutation_in, Permutation_map, HP.
Qed.

Lemma exists_perm (fs1 fs2 : FS) (p : string) :
  Permutation fs1 fs2 -> Fs.exists_ fs1 p = Fs.exists_ fs2 p.
Proof.
  intros HP. apply eq_true_iff_eq. rewrite !exists_iff.
  assert (has fs1 p <-> has fs2 p) as Hiff.
  { split; apply has_perm; [exact HP | apply Permutation_sym, HP]. }
  tauto.
Qed.

Lemma listdir_perm (fs1 fs2 : FS) (d : string) :
  Permutation fs1 fs2 -> Permutation (Fs.listdir fs1 d) (Fs.listdir fs2 d).
Proof.
  induction 1 as [|[p n] l l' _ IH|[p n] [q m] l|l l' l'' _ IH1 _ IH2]; cbn.
  - constructor.
  - destruct (Path.child_of d p); auto.
  - destruct (Path.child_of d p), (Path.child_of d q);
      auto using perm_swap, Permutation_refl.
  - eapply Permutation_trans; eauto.
Qed.

Lemma glob_perm (fs1 fs2 : FS) (d pattern : string) :
  Permutation fs1 fs2 -> Permutation (glob fs1 d pattern) (glob fs2 d pattern).
Proof.
  intros HP. unfold glob.
  apply Permutation_map.
  induction (listdir_perm fs1 fs2 d HP) as [|x l l' _ IH|x y l|l l' l'' _ IH1 _ IH2];
    cbn.
  - constructor.
  - destruct (Fnmatch.fnmatch pattern x); auto.
  - destruct (Fnmatch.fnmatch pattern x), (Fnmatch.fnmatch pattern y);
      auto using perm_swap, Permutation_refl.
  - eapply Permutation_trans; eauto.
Qed.

(** ** The resolution loop *)

Section Resolve.

Variable fs : FS.
Variable pages_dir : string.
Variable stem_pattern : option string.

Let matches (n : Z) : list string :=
  glob fs pages_dir (page_pattern stem_pattern n).

(** The loop succeeds exactly with the first match of every number. *)
Lemma pages_loop_ok (nums : list Z) (acc : list string) (first : Z -> string) :
  (forall n, In n nums -> exists rest, matches n = first n :: rest) ->
  pages_loop fs pages_dir stem_pattern nums acc = Ok (acc ++ map first nums)%list.
Proof.
  revert acc. induction nums as [|n nums IH]; intros acc H; cbn.
  - now rewrite app_nil_r.
  - destruct (H n (or_introl eq_refl)) as (rest & Hn).
    fold (matches n). rewrite Hn, IH.
    + now rewrite <- app_assoc.
    + intros k Hk. apply H. now right.
Qed.

Lemma pages_loop_hd (nums : list Z) (acc l : list string) :
  pages_loop fs pages_dir stem_pattern nums acc = Ok l ->
  l = (acc ++ map (fun n => hd EmptyString (matches n)) nums)%list
  /\ forall n, In n nums -> matches n <> [].
Proof.
  revert acc. induction nums as [|n nums IH]; intros acc; cbn.
  - intros [= <-]. rewrite app_nil_r. split; [reflexivity | tauto].
  - fold (matches n). destruct (matches n) as [|m rest] eqn:Hn; [discriminate|].
    intros H. apply IH in H as [-> H]. rewrite <- app_assoc. cbn.
    split; [reflexivity|]. intros k [<-|Hk]; [now rewrite Hn | now apply H].
Qed.

(** The loop stops at the first number without a match. *)
Lemma pages_loop_missing (k : nat) :
  forall lo hi acc n,
    Z.to_nat (hi - lo) = k -> lo <= n < hi -> matches n = [] ->
    exists n0,
      lo <= n0 <= n /\ matches n0 = []
      /\ (forall j, lo <= j < n0 -> matches j <> [])
      /\ pages_loop fs pages_dir stem_pattern (range lo hi) acc
         = Err (page_not_found n0 (page_pattern stem_pattern n0)).
Proof.
  induction k as [|k IH]; intros lo hi acc n Hk Hn Hm; [lia|].
  rewrite range_cons by lia. cbn. fold (matches lo).
  destruct (matches lo) as [|m rest] eqn:Hlo.
  - exists lo. split; [lia|]. split; [exact Hlo|].
    split; [intros j Hj; lia | reflexivity].
  - assert (n <> lo) by (intros ->; congruence).
    destruct (IH (lo + 1) hi (acc ++ [m])%list n) as (n0 & Hn0 & Hz & Hbefore & Hres);
      try lia; auto.
    exists n0. split; [lia|]. split; [exact Hz|]. split; [|exact Hres].
    intros j Hj. destruct (Z.eq_dec j lo) as [->|Hne]; [now rewrite Hlo|].
    apply Hbefore. lia.
Qed.

End Resolve.

(** C6.  Over an existing base directory, a range with [start > end]
    resolves to the empty list without an error, with or without a stem
    filter: the loop body is never entered. *)
Theorem resolve_empty_range (fs : FS) (pages_dir : string) (start end_ : Z)
    (stem_pattern : option string) :
  Fs.exists_ fs pages_dir = true ->
  start > end_ ->
  get_pages_from_dir fs pages_dir start end_ stem_pattern = Ok [].
Proof.
  intros Hex Hlt. unfold get_pages_from_dir.
  rewrite Hex. cbn. rewrite range_empty by lia. reflexivity.
Qed.

Lemma resolve_empty_range_witness :
  get_pages_from_dir [("tmp/pages", Dir)] "tmp/pages" 5 2 (Some "report") = Ok []
  /\ get_pages_from_dir [("tmp/pages", Dir)] "tmp/pages" 5 2 None = Ok [].
Proof.
  split; apply resolve_empty_range; solve [reflexivity | lia].
Defined.



(** ** Enumeration order *)

Lemma perm_short {A : Type} (l l' : list A) :
  Permutation l l' -> (List.length l <= 1)%nat -> l = l'.
Proof.
  intros HP Hlen. destruct l as [|a [|b l]]; cbn in Hlen; try lia.
  - apply Permutation_nil in HP. now subst.
  - apply Permutation_length_1_inv in HP. now subst.
Qed.

Lemma pages_loop_ext (fs1 fs2 : FS) (d : string) (stem : option string)
    (nums : list Z) (acc : list string) :
  (forall n, In n nums ->
     glob fs1 d (page_pattern stem n) = glob fs2 d (page_pattern stem n)) ->
  pages_loop fs1 d stem nums acc = pages_loop fs2 d stem nums acc.
Proof.
  revert acc. induction nums as [|n nums IH]; intros acc H; cbn; [reflexivity|].
  rewrite (H n (or_introl eq_refl)).
  destruct (glob fs2 d (page_pattern stem n)); [reflexivity|].
  apply IH. intros k Hk. apply H. now right.
Qed.




(* ================================================================== *)
(** ** Strings and paths *)

Lemma all_app (p : ascii -> bool) (s t : string) :
  Str.all p (s ++ t) = (Str.all p s && Str.all p t)%bool.
Proof.
  induction s as [|c s IH]; cbn; [reflexivity|].
  now rewrite IH, andb_assoc.
Qed.

Lemma all_impl (p q : ascii -> bool) (s : string) :
  (forall c, p c = true -> q c = true) -> Str.all p s = true -> Str.all q s = true.
Proof.
  intros Hpq. induction s as [|c s IH]; cbn; [reflexivity|].
  rewrite !andb_true_iff. intros [Hc Hs]. auto.
Qed.

Lemma all_take (p : ascii -> bool) (n : nat) (s : string) :
  Str.all p s = true -> Str.all p (Str.take n s) = true.
Proof.
  revert n. induction s as [|c s IH]; intros [|n]; cbn; auto.
  rewrite !andb_true_iff. intros [Hc Hs]. auto.
Qed.

Lemma all_repeat (p : ascii -> bool) (c : ascii) (n : nat) :
  p c = true -> Str.all p (Str.repeat c n) = true.
Proof.
  intros Hc. induction n as [|n IH]; cbn; [reflexivity|].
  now rewrite Hc, IH.
Qed.

Lemma strip_prefix_app (p s : string) : Str.strip_prefix p (p ++ s) = Some s.
Proof.
  induction p as [|c p IH]; cbn; [now destruct s|].
  now rewrite Ascii.eqb_refl.
Qed.

Lemma rfind_none (c : ascii) (s : string) :
  Str.rfind c s = None -> Str.all (fun a => negb (Ascii.eqb a c)) s = true.
Proof.
  induction s as [|a s IH]; cbn; [reflexivity|].
  destruct (Str.rfind c s); [discriminate|].
  destruct (Ascii.eqb a c); [discriminate|]. intros _. now rewrite IH.
Qed.

Lemma rfind_some (c : ascii) (s : string) (i : nat) :
  Str.rfind c s = Some i ->
  Str.all (fun a => negb (Ascii.eqb a c)) (Str.drop (S i) s) = true.
Proof.
  revert i. induction s as [|a s IH]; intros i; cbn; [discriminate|].
  destruct (Str.rfind c s) as [j|] eqn:Hj.
  - intros [= <-]. now apply IH.
  - destruct (Ascii.eqb a c); [|discriminate]. intros [= <-].
    destruct s; [reflexivity|]. now apply rfind_none.
Qed.

Lemma name_no_sep (p : string) : Str.all not_sep (Path.name p) = true.
Proof.
  unfold Path.name. destruct (Str.rfind Path.sep p) as [i|] eqn:Hi.
  - now apply rfind_some.
  - now apply rfind_none.
Qed.

Lemma stem_no_sep (p : string) : Str.all not_sep (Path.stem p) = true.
Proof.
  unfold Path.stem. destruct (Path.suffix_index (Path.name p)).
  - apply all_take, name_no_sep.
  - apply name_no_sep.
Qed.

(** A path that passes the suffix test has a stem that is not empty. *)
Lemma stem_not_empty (p : string) :
  Str.lower (Path.suffix p) = ".pdf" ->
  exists c s, Path.stem p = String c s.
Proof.
  unfold Path.suffix, Path.stem, Path.suffix_index.
  destruct (Str.rfind "."%char (Path.name p)) as [i|]; [|discriminate].
  destruct (Nat.ltb 0 i && Nat.ltb i (String.length (Path.name p) - 1))%bool
    eqn:Hi; [|discriminate].
  intros _. apply andb_true_iff in Hi as [H0 H1].
  apply Nat.ltb_lt in H0, H1.
  destruct i as [|i]; [lia|].
  destruct (Path.name p) as [|c s]; cbn in *; [lia|]. eauto.
Qed.

Lemma child_of_join (d nm : string) :
  nm <> EmptyString -> Str.all not_sep nm = true ->
  Path.child_of d (Path.join d nm) = Some nm.
Proof.
  intros Hne Hsep. unfold Path.child_of, Path.join.
  rewrite strip_prefix_app. destruct nm as [|c nm]; [contradiction|].
  unfold not_sep in Hsep. now rewrite Hsep.
Qed.

(** ** Decimal numerals *)

Lemma string_of_uint_digits (d : Decimal.uint) :
  Str.all Str.is_digit (NilEmpty.string_of_uint d) = true.
Proof.
  induction d; cbn; auto.
Qed.

Lemma nilzero_digits (d : Decimal.uint) :
  Str.all Str.is_digit (NilZero.string_of_uint d) = true.
Proof.
  destruct d; try reflexivity; apply (string_of_uint_digits (_ _)).
Qed.

Lemma format_04d_chars (n : Z) : Str.all digit_or_minus (format_04d n) = true.
Proof.
  assert (forall s, Str.all Str.is_digit s = true ->
                    Str.all digit_or_minus s = true) as Hd.
  { intros s. apply all_impl. intros c Hc. unfold digit_or_minus. now rewrite Hc. }
  unfold format_04d. destruct (n <? 0); cbn [Str.all String.append];
    rewrite all_app, all_repeat by reflexivity;
    rewrite (Hd _ (nilzero_digits _)); reflexivity.
Qed.

(** ** Patterns without metacharacters *)

Lemma translate_plain (fuel : nat) (pat : string) :
  Str.all plain_char pat = true -> (String.length pat <= fuel)%nat ->
  Fnmatch.translate_fuel fuel pat = lits pat.
Proof.
  revert pat. induction fuel as [|fuel IH]; intros [|c pat]; cbn;
    try reflexivity; try lia.
  unfold plain_char at 1. rewrite andb_true_iff, negb_true_iff, !orb_false_iff.
  intros [[[-> ->] ->] Hp] Hlen. rewrite IH; [reflexivity | exact Hp | lia].
Qed.

Lemma match_lits (pat nm : string) :
  Fnmatch.match_toks (lits pat) nm = String.eqb pat nm.
Proof.
  revert nm. induction pat as [|c pat IH]; intros [|a nm]; cbn; try reflexivity.
  rewrite IH. now destruct (Ascii.eqb c a).
Qed.

(** A pattern without [*], [?] and [[] matches its own text only. *)
Lemma fnmatch_plain (pat nm : string) :
  Str.all plain_char pat = true ->
  Fnmatch.fnmatch pat nm = String.eqb pat nm.
Proof.
  intros Hp. unfold Fnmatch.fnmatch, Fnmatch.translate.
  rewrite translate_plain by auto. apply match_lits.
Qed.

Lemma filter_eqb_head (x : string) (l : list string) :
  In x l -> exists rest, filter (String.eqb x) l = x :: rest.
Proof.
  induction l as [|y l IH]; cbn; [tauto|].
  destruct (String.eqb_spec x y) as [<-|Hne]; [eauto|].
  intros [->|H]; [contradiction | auto].
Qed.

Lemma listdir_in (fs : FS) (d p nm : string) :
  has fs p -> Path.child_of d p = Some nm -> In nm (Fs.listdir fs d).
Proof.
  unfold has. intros Hp Hc. induction fs as [|[q n] fs IH]; cbn in *; [tauto|].
  destruct Hp as [->|Hp].
  - rewrite Hc. now left.
  - destruct (Path.child_of d q); [right|]; auto.
Qed.

(** Looking up a plain name that is present puts it first among the
    matches. *)
Lemma glob_plain (fs : FS) (d nm : string) :
  Str.all plain_char nm = true ->
  nm <> EmptyString -> Str.all not_sep nm = true ->
  has fs (Path.join d nm) ->
  exists rest, glob fs d nm = Path.join d nm :: rest.
Proof.
  intros Hplain Hne Hsep Hhas. unfold glob.
  rewrite (filter_ext _ (String.eqb nm)) by (intros a; now apply fnmatch_plain).
  destruct (filter_eqb_head nm (Fs.listdir fs d)) as (rest & ->).
  - eapply listdir_in; eauto using child_of_join.
  - cbn. eauto.
Qed.

(** ** File-system updates *)

Lemma has_put_same (fs : FS) (p : string) (n : node) : has (Fs.put fs p n) p.
Proof.
  unfold has. induction fs as [|[q m] fs IH]; cbn; [now left|].
  destruct (String.eqb_spec q p) as [->|Hne]; cbn; auto.
Qed.

Lemma has_put (fs : FS) (p q : string) (n : node) :
  has fs q -> has (Fs.put fs p n) q.
Proof.
  unfold has. induction fs as [|[r m] fs IH]; cbn; [tauto|].
  destruct (String.eqb_spec r p) as [->|Hne]; cbn; tauto.
Qed.

Lemma has_app (fs1 fs2 : FS) (q : string) :
  has (fs1 ++ fs2)%list q <-> has fs1 q \/ has fs2 q.
Proof.
  unfold has. rewrite map_app. apply in_app_iff.
Qed.

Lemma has_mkdir_fuel (fuel : nat) (fs : FS) (d q : string) :
  has fs q -> has (Fs.mkdir_fuel fuel fs d) q.
Proof.
  revert d. induction fuel as [|fuel IH]; intros d Hq; cbn;
    destruct (Fs.exists_ fs d); auto; apply has_app; auto.
Qed.

Lemma has_mkdir (fs : FS) (d q : string) : has fs q -> has (Fs.mkdir fs d) q.
Proof.
  apply has_mkdir_fuel.
Qed.

Lemma exists_mkdir (fs : FS) (d : string) : Fs.exists_ (Fs.mkdir fs d) d = true.
Proof.
  unfold Fs.mkdir. destruct (String.length d) as [|fuel]; cbn;
    destruct (Fs.exists_ fs d) eqn:Hex; auto;
    apply exists_iff; right; right; apply has_app; right; now left.
Qed.

Lemma lookup_app (fs1 fs2 : FS) (p : string) (n : node) :
  Fs.lookup fs1 p = Some n -> Fs.lookup (fs1 ++ fs2)%list p = Some n.
Proof.
  induction fs1 as [|[q m] fs1 IH]; cbn; [discriminate|].
  destruct (String.eqb q p); auto.
Qed.

Lemma lookup_mkdir_fuel (fuel : nat) (fs : FS) (d p : string) (n : node) :
  Fs.lookup fs p = Some n -> Fs.lookup (Fs.mkdir_fuel fuel fs d) p = Some n.
Proof.
  revert d. induction fuel as [|fuel IH]; intros d Hp; cbn;
    destruct (Fs.exists_ fs d); auto; apply lookup_app; auto.
Qed.

Lemma lookup_mkdir (fs : FS) (d p : string) (n : node) :
  Fs.lookup fs p = Some n -> Fs.lookup (Fs.mkdir fs d) p = Some n.
Proof.
  apply lookup_mkdir_fuel.
Qed.

Lemma lookup_put_same (fs : FS) (p : string) (n : node) :
  Fs.lookup (Fs.put fs p n) p = Some n.
Proof.
  induction fs as [|[q m] fs IH]; cbn.
  - now rewrite String.eqb_refl.
  - destruct (String.eqb q p) eqn:Hq; cbn; now rewrite Hq.
Qed.

Lemma lookup_exists (fs : FS) (p : string) (n : node) :
  Fs.lookup fs p = Some n -> Fs.exists_ fs p = true.
Proof.
  intros H. unfold Fs.exists_. rewrite H. apply orb_true_r.
Qed.

(** ** Reading pages by index *)

Lemma page_at_ok (doc : Document) (i : Z) :
  0 <= i < Z.of_nat (List.length doc) ->
  exists pg, page_at doc i = Ok pg /\ nth_error doc (Z.to_nat i) = Some pg.
Proof.
  intros Hi. unfold page_at.
  replace (i <? 0) with false by lia.
  replace ((0 <=? i) && (i <? Z.of_nat (List.length doc)))%bool with true by lia.
  destruct (nth_error doc (Z.to_nat i)) as [pg|] eqn:Hnth; [eauto|].
  apply nth_error_None in Hnth. lia.
Qed.

Lemma nth_error_seq_firstn {A : Type} (l : list A) (k : nat) :
  (k <= List.length l)%nat ->
  map (nth_error l) (seq 0 k) = map Some (firstn k l).
Proof.
  revert k. induction l as [|a l IH]; intros [|k] Hk; cbn in *; try reflexivity;
    try lia.
  f_equal. rewrite <- seq_shift, map_map. cbn. apply IH. lia.
Qed.

Lemma pages_at_nat (doc : Document) (idxs : list nat) (pgs : list Page) :
  map (nth_error doc) idxs = map Some pgs ->
  pages_at doc (map Z.of_nat idxs) = Ok pgs.
Proof.
  revert pgs. induction idxs as [|i idxs IH]; intros [|pg pgs]; cbn [map];
    try discriminate; [reflexivity|].
  intros [= Hi Hrest]. cbn [pages_at].
  destruct (page_at_ok doc (Z.of_nat i)) as (pg' & -> & Hpg).
  { assert (nth_error doc i <> None) as H by congruence.
    apply nth_error_Some in H. lia. }
  rewrite Nat2Z.id in Hpg. assert (pg' = pg) as -> by congruence.
  cbn [bind]. now rewrite (IH pgs Hrest).
Qed.

Lemma pages_at_range (doc : Document) (k : Z) :
  k <= Z.of_nat (List.length doc) ->
  pages_at doc (range 0 k) = Ok (firstn (Z.to_nat k) doc).
Proof.
  intros Hk. unfold range. rewrite Z.sub_0_r.
  rewrite (map_ext _ Z.of_nat) by (intros i; apply Z.add_0_l).
  apply pages_at_nat, nth_error_seq_firstn. lia.
Qed.

(* ================================================================== *)
(** ** Splitting, then resolving *)

Lemma split_loop_spec (doc : Document) (d stem : string) (idxs : list Z) :
  forall (acc : list string) (fs : FS),
    (forall i, In i idxs -> 0 <= i < Z.of_nat (List.length doc)) ->
    exists fs',
      split_loop doc d stem idxs acc fs
      = (fs', Ok (acc ++ map (fun i => Path.join d (page_file_name stem (i + 1)))
                            idxs)%list)
      /\ (forall q, has fs q -> has fs' q)
      /\ (forall i, In i idxs ->
            has fs' (Path.join d (page_file_name stem (i + 1)))).
Proof.
  induction idxs as [|i idxs IH]; intros acc fs Hin; cbn [split_loop map].
  - exists fs. rewrite app_nil_r. split; [reflexivity|]. split; [auto|].
    intros i [].
  - destruct (page_at_ok doc i) as (pg & Hpg & _); [apply Hin; now left|].
    unfold bindM at 1, lift at 1. rewrite Hpg.
    unfold bindM at 1, write_pdf at 1.
    destruct (IH (acc ++ [Path.join d (page_file_name stem (i + 1))])%list
                 (Fs.write_pdf fs (Path.join d (page_file_name stem (i + 1))) [pg]))
      as (fs' & Hrun & Hkeep & Hnew).
    { intros j Hj. apply Hin. now right. }
    exists fs'. rewrite Hrun, <- app_assoc. split; [reflexivity|].
    split.
    + intros q Hq. apply Hkeep, has_put, Hq.
    + intros j [<-|Hj]; [apply Hkeep, has_put_same | now apply Hnew].
Qed.

Lemma range_shift (f : Z -> string) (k : Z) :
  map (fun i => f (i + 1)) (range 0 k) = map f (range 1 (k + 1)).
Proof.
  unfold range. rewrite !map_map.
  replace (k + 1 - 1) with (k - 0) by lia.
  apply map_ext. intros i. f_equal. lia.
Qed.

Lemma digit_or_minus_plain (c : ascii) :
  digit_or_minus c = true -> plain_char c = true.
Proof.
  unfold plain_char.
  destruct (Ascii.eqb_spec c "*") as [->|_]; [discriminate|].
  destruct (Ascii.eqb_spec c "?") as [->|_]; [discriminate|].
  destruct (Ascii.eqb_spec c "[") as [->|_]; [discriminate|].
  reflexivity.
Qed.

Lemma digit_or_minus_not_sep (c : ascii) :
  digit_or_minus c = true -> not_sep c = true.
Proof.
  unfold not_sep.
  destruct (Ascii.eqb_spec c Path.sep) as [->|_]; [discriminate | reflexivity].
Qed.

(** The name of a page file inherits from the stem the absence of
    metacharacters and of separators. *)
Lemma page_file_name_chars (p : ascii -> bool) (stem : string) (n : Z) :
  (forall c, digit_or_minus c = true -> p c = true) ->
  Str.all p "-page-" = true -> Str.all p ".pdf" = true ->
  Str.all p stem = true ->
  Str.all p (page_file_name stem n) = true.
Proof.
  intros Hd H1 H2 Hs. unfold page_file_name.
  rewrite !all_app, Hs, H1, H2.
  rewrite (all_impl _ _ _ Hd (format_04d_chars n)). reflexivity.
Qed.




(* ================================================================== *)
(** ** Merging *)

Lemma merge_loop_cons (p : string) (ps : list string) (acc : list Page) (fs : FS) :
  merge_loop (p :: ps) acc fs
  = if Fs.exists_ fs p then
      match Fs.read_pdf fs p with
      | Ok doc =>
          match page_at doc 0 with
          | Ok pg => merge_loop ps (acc ++ [pg])%list fs
          | Err e => (fs, Err e)
          end
      | Err e => (fs, Err e)
      end
    else (fs, Err (FileNotFoundError ("Page file not found: " ++ p))).
Proof.
  cbn [merge_loop]. unfold bindM, path_exists, raise, read_pdf, lift.
  destruct (Fs.exists_ fs p); cbn [negb]; [|reflexivity].
  destruct (Fs.read_pdf fs p) as [doc|e]; [|reflexivity].
  destruct (page_at doc 0); reflexivity.
Qed.

Lemma page_at_first (pg : Page) (rest : list Page) : page_at (pg :: rest) 0 = Ok pg.
Proof.
  destruct (page_at_ok (pg :: rest) 0) as (pg' & -> & H); [cbn; lia|].
  cbn in H. congruence.
Qed.

Lemma merge_loop_ok (fs : FS) (page_files : list string) (firsts : list Page) :
  first_pages fs page_files firsts ->
  forall acc, merge_loop page_files acc fs = (fs, Ok (acc ++ firsts)%list).
Proof.
  induction 1 as [|p pg ps pgs (rest & Hp) _ IH]; intros acc.
  - cbn. now rewrite app_nil_r.
  - rewrite merge_loop_cons, (lookup_exists _ _ _ Hp).
    unfold Fs.read_pdf. rewrite Hp, page_at_first, IH, <- app_assoc. reflexivity.
Qed.

Lemma merge_loop_state (fs : FS) (page_files : list string) :
  forall acc, fst (merge_loop page_files acc fs) = fs.
Proof.
  induction page_files as [|p ps IH]; intros acc; [reflexivity|].
  rewrite merge_loop_cons.
  destruct (Fs.exists_ fs p); [|reflexivity].
  destruct (Fs.read_pdf fs p) as [doc|e]; [|reflexivity].
  destruct (page_at doc 0); [apply IH | reflexivity].
Qed.

(** The loop raises no [ValueError]. *)
Lemma merge_loop_no_value_error (fs : FS) (page_files : list string) :
  forall acc msg, snd (merge_loop page_files acc fs) <> Err (ValueError msg).
Proof.
  induction page_files as [|p ps IH]; intros acc msg; [discriminate|].
  rewrite merge_loop_cons.
  destruct (Fs.exists_ fs p); [|discriminate].
  unfold Fs.read_pdf. destruct (Fs.lookup fs p) as [[|doc]|]; try discriminate.
  unfold page_at.
  destruct ((0 <? 0)%Z); (destruct (_ && _)%bool; [|discriminate]);
    (destruct (nth_error doc _); [apply IH | discriminate]).
Qed.

(** The loop stops at the first path that does not exist. *)
Lemma merge_loop_missing (fs : FS) (before : list string) (firsts : list Page)
    (p : string) (after : list string) :
  first_pages fs before firsts ->
  Fs.exists_ fs p = false ->
  forall acc,
    merge_loop (before ++ p :: after)%list acc fs
    = (fs, Err (FileNotFoundError ("Page file not found: " ++ p))).
Proof.
  intros Hbefore Hp.
  induction Hbefore as [|q pg qs pgs (rest & Hq) _ IH]; intros acc; cbn [app].
  - now rewrite merge_loop_cons, Hp.
  - rewrite merge_loop_cons, (lookup_exists _ _ _ Hq).
    unfold Fs.read_pdf. rewrite Hq, page_at_first. apply IH.
Qed.

Lemma first_pages_mkdir (fs : FS) (d : string) (ps : list string)
    (pgs : list Page) :
  first_pages fs ps pgs -> first_pages (Fs.mkdir fs d) ps pgs.
Proof.
  unfold first_pages. apply Forall2_impl.
  intros p pg (rest & H). exists rest. now apply lookup_mkdir.
Qed.

Lemma merge_pages_cons (output_path p : string) (ps : list string) (fs : FS) :
  merge_pages output_path (p :: ps) fs
  = let fs1 := Fs.mkdir fs (Path.parent output_path) in
    match merge_loop (p :: ps) [] fs1 with
    | (fs2, Ok writer) => (Fs.write_pdf fs2 output_path writer, Ok output_path)
    | (fs2, Err e) => (fs2, Err e)
    end.
Proof.
  unfold merge_pages, bindM, mkdir, write_pdf, ret. cbn zeta.
  destruct (merge_loop (p :: ps) [] _) as [fs2 [writer|e]]; reflexivity.
Qed.







(* ================================================================== *)
(** ** Parsing a range *)

Lemma span_digits_app (a r : string) :
  Str.all Str.is_digit a = true ->
  match r with String c _ => Str.is_digit c = false | EmptyString => True end ->
  Re.span_digits (a ++ r) = (a, r).
Proof.
  intros Ha Hr.
  induction a as [|c a IH]; cbn [Re.span_digits String.append Str.all] in *.
  - destruct r as [|c r]; [reflexivity|]. cbn [Re.span_digits]. now rewrite Hr.
  - apply andb_true_iff in Ha as [Hc Ha]. now rewrite Hc, IH.
Qed.

(** Two runs of digits around one hyphen parse to the two integers. *)
Lemma parse_range_digits (a b : string) :
  a <> EmptyString -> b <> EmptyString ->
  Str.all Str.is_digit a = true -> Str.all Str.is_digit b = true ->
  parse_range (a ++ "-" ++ b) = Ok (int_of_digits a, int_of_digits b).
Proof.
  intros Ha Hb Hda Hdb. unfold parse_range, Re.match_range.
  rewrite span_digits_app by (auto; reflexivity).
  destruct a as [|c a]; [contradiction|]. cbn [String.append].
  replace b with (b ++ EmptyString) at 1
    by (clear; induction b; cbn; congruence).
  rewrite span_digits_app by (auto; exact I).
  destruct b as [|c' b]; [contradiction|]. reflexivity.
Qed.

(** C7.  The token made of [1-5] and a final line feed is not of the form
    digits, hyphen, digits, and yet [parse_range] accepts it: the [$] of the
    regular expression also matches just before a line feed that ends the
    string. *)
Theorem parse_range_accepts_final_line_feed :
  parse_range ("1-5" ++ String Re.line_feed EmptyString) = Ok (1, 5).
Proof.
  reflexivity.
Qed.

(* ================================================================== *)
(** ** Extracting the first pages *)

Lemma add_pages_pages_at (doc : Document) (idxs : list Z) :
  forall writer,
    add_pages doc idxs writer
    = pgs <- pages_at doc idxs ;; Ok (writer ++ pgs)%list.
Proof.
  induction idxs as [|i idxs IH]; intros writer; cbn [add_pages pages_at bind].
  - now rewrite app_nil_r.
  - destruct (page_at doc i) as [pg|e]; cbn [bind]; [|reflexivity].
    rewrite IH. destruct (pages_at doc idxs) as [pgs|e]; cbn [bind];
      [|reflexivity].
    now rewrite <- app_assoc.
Qed.

(** [extract_first_pages] on a document that passes the two guards. *)
Lemma extract_first_pages_run (fs : FS) (input_path output_dir : string)
    (num_pages : Z) (doc : Document) :
  Fs.lookup fs input_path = Some (File doc) ->
  Str.lower (Path.suffix input_path) = ".pdf" ->
  let output_path := Path.join output_dir (Path.name input_path) in
  let k := Z.to_nat (Z.min num_pages (Z.of_nat (List.length doc))) in
  extract_first_pages input_path output_dir num_pages fs
  = (Fs.write_pdf (Fs.mkdir fs output_dir) output_path (firstn k doc),
     Ok output_path).
Proof.
  intros Hfile Hsuffix output_path k.
  unfold extract_first_pages, check_input.
  rewrite (lookup_exists _ _ _ Hfile), Hsuffix. cbn.
  unfold Fs.read_pdf. rewrite (lookup_mkdir _ _ _ _ Hfile).
  unfold bindM, lift, write_pdf, ret.
  rewrite add_pages_pages_at, pages_at_range by lia. reflexivity.
Qed.



(* ================================================================== *)
(** ** The content hash *)

Lemma append_nil_r (s : string) : s ++ EmptyString = s.
Proof.
  induction s as [|c s IH]; cbn; congruence.
Qed.

Lemma append_assoc (s t u : string) : (s ++ t) ++ u = s ++ (t ++ u).
Proof.
  induction s as [|c s IH]; cbn; congruence.
Qed.

Lemma length_append (s t : string) :
  String.length (s ++ t) = (String.length s + String.length t)%nat.
Proof.
  induction s as [|c s IH]; cbn; congruence.
Qed.

Lemma read_text_pages_at (doc : Document) (idxs : list Z) :
  forall text,
    read_text doc idxs text
    = pgs <- pages_at doc idxs ;;
      Ok (text ++ concat_texts (map text_or_empty pgs)).
Proof.
  induction idxs as [|i idxs IH]; intros text; cbn [read_text pages_at bind].
  - cbn. now rewrite append_nil_r.
  - destruct (page_at doc i) as [pg|e]; cbn [bind]; [|reflexivity].
    rewrite IH. destruct (pages_at doc idxs) as [pgs|e]; cbn [bind];
      [|reflexivity].
    cbn. now rewrite append_assoc.
Qed.

Lemma read_text_leading (doc : Document) (k : Z) :
  read_text doc (range 0 (Z.min k (Z.of_nat (List.length doc)))) EmptyString
  = Ok (concat_texts (leading_text doc k)).
Proof.
  rewrite read_text_pages_at, pages_at_range by lia. reflexivity.
Qed.

(** The digest is eight words of 32 bits, printed on 64 characters. *)
Lemma round_length (st : list Z) (kw : Z * Z) :
  List.length (Sha256.round st kw) = List.length st.
Proof.
  do 9 (destruct st as [|? st]; try reflexivity).
Qed.

Lemma rounds_length (kws : list (Z * Z)) (st : list Z) :
  List.length (fold_left Sha256.round kws st) = List.length st.
Proof.
  revert st. induction kws as [|kw kws IH]; intros st; cbn; [reflexivity|].
  now rewrite IH, round_length.
Qed.

Lemma compress_length (h block : list Z) :
  List.length (Sha256.compress h block) = List.length h.
Proof.
  unfold Sha256.compress.
  rewrite length_map, length_combine, rounds_length. lia.
Qed.

Lemma blocks_length (k : nat) (h bs : list Z) :
  List.length (Sha256.blocks k h bs) = List.length h.
Proof.
  revert h bs. induction k as [|k IH]; intros h bs; cbn; [reflexivity|].
  now rewrite IH, compress_length.
Qed.

Lemma hex_length (k : nat) (n : Z) : String.length (Sha256.hex k n) = k.
Proof.
  induction k as [|k IH]; cbn; congruence.
Qed.

Lemma hexdigest_length (msg : list Z) :
  String.length (Sha256.hexdigest msg) = 64%nat.
Proof.
  unfold Sha256.hexdigest.
  assert (forall ws : list Z,
            String.length (fold_right (fun w acc => Sha256.hex 8 w ++ acc)
                                      EmptyString ws)
            = (8 * List.length ws)%nat) as H.
  { induction ws as [|w ws IH]; [reflexivity|].
    cbn [fold_right List.length]. rewrite length_append, hex_length, IH. lia. }
  rewrite H. unfold Sha256.digest. now rewrite blocks_length.
Qed.



(* ================================================================== *)
(** ** Binary64 rounding *)

Lemma digits2_size (p : positive) : digits2_pos p = Pos.size p.
Proof.
  induction p; cbn; congruence.
Qed.

(** A positive number of [d] binary digits lies in [[2^(d-1), 2^d)]. *)
Lemma digits2_bounds (p : positive) :
  2 ^ (Z.pos (digits2_pos p) - 1) <= Z.pos p < 2 ^ Z.pos (digits2_pos p).
Proof.
  rewrite digits2_size.
  pose proof (Pos.size_gt p) as Hgt. pose proof (Pos.size_le p) as Hle.
  apply Pos2Z.pos_lt_pos in Hgt. apply Pos2Z.pos_le_pos in Hle.
  rewrite Pos2Z.inj_pow in Hgt, Hle.
  assert (2 ^ Z.pos (Pos.size p) = 2 * 2 ^ (Z.pos (Pos.size p) - 1)) as Hpow.
  { rewrite <- Z.pow_succ_r by lia. f_equal. lia. }
  lia.
Qed.

Lemma digits2_unique (p : positive) (d : Z) :
  2 ^ (d - 1) <= Z.pos p < 2 ^ d -> Z.pos (digits2_pos p) = d.
Proof.
  intros [Hlo Hhi]. pose proof (digits2_bounds p) as [Hlo' Hhi'].
  assert (0 < d).
  { destruct (Z.ltb_spec 0 d); [assumption|].
    assert (2 ^ d <= 2 ^ 0) by (destruct (Z.eq_dec d 0) as [->|]; [lia|]; rewrite Z.pow_neg_r by lia; lia). lia. }
  assert (d - 1 < Z.pos (digits2_pos p)).
  { apply (Z.pow_lt_mono_r_iff 2); lia. }
  assert (Z.pos (digits2_pos p) - 1 < d).
  { apply (Z.pow_lt_mono_r_iff 2); lia. }
  lia.
Qed.

Lemma iter_xO (p n : positive) : Z.pos (Pos.iter xO p n) = Z.pos p * 2 ^ Z.pos n.
Proof.
  induction n as [|n IH] using Pos.peano_ind.
  - cbn. lia.
  - rewrite Pos.iter_succ, Pos2Z.inj_xO, IH, Pos2Z.inj_succ, Z.pow_succ_r; lia.
Qed.

Lemma iter_pos_nat {A : Type} (f : A -> A) (p : positive) (x : A) :
  iter_pos f p x = Nat.iter (Pos.to_nat p) f x.
Proof.
  revert x. induction p as [p IH|p IH|]; intros x; cbn [iter_pos].
  - rewrite Pos2Nat.inj_xI, !IH.
    replace (S (2 * Pos.to_nat p)) with (S (Pos.to_nat p + Pos.to_nat p)) by lia.
    now rewrite Nat.iter_succ_r, Nat.iter_add.
  - rewrite Pos2Nat.inj_xO, !IH.
    replace (2 * Pos.to_nat p)%nat with (Pos.to_nat p + Pos.to_nat p)%nat by lia.
    now rewrite Nat.iter_add.
  - reflexivity.
Qed.

Lemma shr_1_m (mrs : shr_record) :
  0 <= shr_m mrs -> shr_m (shr_1 mrs) = shr_m mrs / 2.
Proof.
  destruct mrs as [m r s]. cbn [shr_m]. intros Hm.
  destruct m as [|[p|p|]|p]; cbn [shr_1 shr_m]; try reflexivity; try lia.
  - apply Z.div_unique with (r := 1); lia.
  - apply Z.div_unique with (r := 0); lia.
Qed.

Lemma shr_iter_m (n : nat) (mrs : shr_record) :
  0 <= shr_m mrs ->
  shr_m (Nat.iter n shr_1 mrs) = shr_m mrs / 2 ^ Z.of_nat n.
Proof.
  intros Hm. induction n as [|n IH].
  - cbn. now rewrite Z.div_1_r.
  - rewrite Nat.iter_succ, shr_1_m, IH.
    + rewrite Nat2Z.inj_succ, Z.pow_succ_r, Z.div_div by lia.
      f_equal. lia.
    + rewrite IH. apply Z.div_pos; lia.
Qed.

(** The mantissa left by [shr], whatever the rounding bits. *)
Lemma shr_m_div (m e n : Z) :
  0 <= m -> 0 <= n ->
  shr_m (fst (shr (Build_shr_record m false false) e n)) = m / 2 ^ n
  /\ snd (shr (Build_shr_record m false false) e n) = e + n.
Proof.
  intros Hm Hn. destruct n as [|p|p]; cbn [shr fst snd shr_m]; try lia.
  - rewrite Z.div_1_r. lia.
  - rewrite iter_pos_nat, shr_iter_m by (cbn; lia).
    cbn [shr_m]. now rewrite positive_nat_Z.
Qed.

Lemma rne_bounds (m : Z) (l : location) :
  m <= round_nearest_even m l <= m + 1.
Proof.
  destruct l as [|[]]; cbn; try lia. destruct (Z.even m); lia.
Qed.

Lemma fexp_normal (x : Z) :
  -1021 <= x -> fexp Float.prec Float.emax x = x - 53.
Proof.
  intros Hx. unfold fexp, emin, Float.prec, Float.emax. lia.
Qed.

(** A mantissa of 53 digits with an exponent in range is not rounded. *)
Lemma round_aux_exact (s : bool) (m : positive) (e : Z) :
  Z.pos (digits2_pos m) = 53 -> -1074 <= e <= 971 ->
  binary_round_aux Float.prec Float.emax s (Z.pos m) e loc_Exact
  = S754_finite s m e.
Proof.
  intros Hd He. unfold binary_round_aux, shr_fexp.
  cbn [Zdigits2 shr_record_of_loc]. rewrite Hd, fexp_normal by lia.
  replace (53 + e - 53 - e) with 0 by lia. cbn [shr].
  cbn [shr_m loc_of_shr_record round_nearest_even Zdigits2 shr_record_of_loc].
  rewrite Hd, fexp_normal by lia.
  replace (53 + e - 53 - e) with 0 by lia. cbn [shr shr_m].
  unfold Float.emax, Float.prec.
  replace (e <=? 1024 - 53) with true by lia. reflexivity.
Qed.

(** Rounding a longer mantissa: the integer part of the result is the
    integer part of one of the two neighbours of the exact quotient. *)
Lemma round_aux_to_int (M : positive) (E : Z) :
  let n := Z.pos (digits2_pos M) - 53 in
  0 <= n -> -1074 <= E + n -> E + n + 1 < 0 ->
  exists m1,
    Z.pos M / 2 ^ n <= m1 <= Z.pos M / 2 ^ n + 1
    /\ Float.to_int
         (binary_round_aux Float.prec Float.emax false (Z.pos M) E loc_Exact)
       = m1 / 2 ^ (- (E + n)).
Proof.
  intros n Hn Hlo Hhi.
  pose proof (digits2_bounds M) as [HMlo HMhi].
  assert (2 ^ 52 <= Z.pos M / 2 ^ n < 2 ^ 53) as [Hq1 Hq2].
  { replace (Z.pos (digits2_pos M) - 1) with (52 + n) in HMlo by lia.
    replace (Z.pos (digits2_pos M)) with (53 + n) in HMhi by lia.
    rewrite Z.pow_add_r in HMlo, HMhi by lia.
    assert (0 < 2 ^ n) by (apply Z.pow_pos_nonneg; lia).
    split.
    - apply Z.div_le_lower_bound; lia.
    - apply Z.div_lt_upper_bound; lia. }
  unfold binary_round_aux, shr_fexp.
  cbn [Zdigits2 shr_record_of_loc]. rewrite fexp_normal by lia.
  replace (Z.pos (digits2_pos M) + E - 53 - E) with n by lia.
  destruct (shr_m_div (Z.pos M) E n) as [Hm He]; try lia.
  destruct (shr _ E n) as [mrs' e']. cbn [fst snd] in Hm, He. subst e'.
  pose proof (rne_bounds (shr_m mrs') (loc_of_shr_record mrs')) as Hrne.
  remember (round_nearest_even (shr_m mrs') (loc_of_shr_record mrs')) as m1
    eqn:Em1.
  clear Em1. rewrite Hm in Hrne.
  exists m1. split; [exact Hrne|].
  destruct m1 as [|m1|m1]; try lia.
  cbn [Zdigits2 shr_record_of_loc].
  set (n2 := Z.pos (digits2_pos m1) - 53).
  assert (0 <= n2 <= 1) as Hn2.
  { pose proof (digits2_bounds m1) as [Hlo1 Hhi1]. unfold n2.
    assert (52 < Z.pos (digits2_pos m1)) by (apply (Z.pow_lt_mono_r_iff 2); lia).
    assert (Z.pos (digits2_pos m1) - 1 < 54).
    { apply (Z.pow_lt_mono_r_iff 2); lia. }
    lia. }
  rewrite fexp_normal by lia.
  replace (Z.pos (digits2_pos m1) + (E + n) - 53 - (E + n)) with n2 by lia.
  destruct (shr_m_div (Z.pos m1) (E + n) n2) as [Hm2 He2]; try lia.
  destruct (shr _ (E + n) n2) as [mrs'' e'']. cbn [fst snd] in Hm2, He2. subst e''.
  rewrite Hm2.
  assert (0 < 2 ^ n2 <= 2) as Hp2.
  { assert (n2 = 0 \/ n2 = 1) as [-> | ->] by lia; cbn; lia. }
  assert (0 < Z.pos m1 / 2 ^ n2) as Hpos.
  { apply Z.div_str_pos. change (2 ^ 52) with 4503599627370496 in Hq1. lia. }
  destruct (Z.pos m1 / 2 ^ n2) as [|m2|m2] eqn:Hdiv; try lia.
  unfold Float.emax, Float.prec.
  replace (E + n + n2 <=? 1024 - 53) with true by lia.
  unfold Float.to_int.
  replace (0 <=? E + n + n2) with false by lia.
  rewrite <- Hdiv, Z.div_div by lia.
  rewrite <- Z.pow_add_r by lia. f_equal. f_equal. lia.
Qed.

(** [float(n)] is exact below [2^53]: the mantissa is [n] shifted to 53
    digits. *)
Lemma of_int_exact (p : positive) :
  let d := Z.pos (digits2_pos p) in
  d < 53 ->
  exists mz,
    Float.of_int (Z.pos p) = S754_finite false mz (d - 53)
    /\ Z.pos mz = Z.pos p * 2 ^ (53 - d)
    /\ 2 ^ 52 <= Z.pos mz < 2 ^ 53.
Proof.
  intros d Hd.
  pose proof (digits2_bounds p) as [Hlo Hhi]. fold d in Hlo, Hhi.
  unfold Float.of_int, binary_normalize, binary_round, shl_align.
  rewrite fexp_normal by lia. fold d.
  destruct (d + 0 - 53 - 0) as [|k|k] eqn:Hk; try lia.
  exists (Pos.iter xO p k).
  assert (Z.pos k = 53 - d) as Hk' by lia.
  assert (Z.pos (Pos.iter xO p k) = Z.pos p * 2 ^ (53 - d)) as Hmz
    by (now rewrite iter_xO, Hk').
  assert (2 ^ 52 <= Z.pos (Pos.iter xO p k) < 2 ^ 53) as Hrange.
  { rewrite Hmz.
    assert (2 ^ 52 = 2 ^ (d - 1) * 2 ^ (53 - d)) as ->
      by (rewrite <- Z.pow_add_r by lia; f_equal; lia).
    assert (2 ^ 53 = 2 ^ d * 2 ^ (53 - d)) as ->
      by (rewrite <- Z.pow_add_r by lia; f_equal; lia).
    assert (0 < 2 ^ (53 - d)) by (apply Z.pow_pos_nonneg; lia).
    split.
    - apply Z.mul_le_mono_nonneg_r; lia.
    - apply Z.mul_lt_mono_pos_r; lia. }
  split; [|split; [exact Hmz | exact Hrange]].
  replace (d + 0 - 53) with (d - 53) by lia.
  apply round_aux_exact; [|lia].
  apply digits2_unique. exact Hrange.
Qed.

(** Below [2^48] words, the binary64 product with 1.3, truncated, is the
    integer part of thirteen tenths of the word count. *)
Lemma token_estimate_floor (wc : Z) :
  0 <= wc < 2 ^ 48 ->
  Float.to_int (Float.mul (Float.of_int wc) Float.lit_1_3) = 13 * wc / 10.
Proof.
  intros [H0 Hwc]. destruct wc as [|p|p]; [reflexivity| |lia].
  pose proof (digits2_bounds p) as [Hdlo Hdhi].
  set (d := Z.pos (digits2_pos p)) in *.
  assert (1 <= d <= 48) as Hd.
  { split; [unfold d; lia|].
    assert (d - 1 < 48) by (apply (Z.pow_lt_mono_r_iff 2); lia). lia. }
  destruct (of_int_exact p) as (mz & -> & Hmz & Hmz52 & Hmz53); [fold d; lia|].
  fold d in Hmz |- *.
  unfold Float.mul, Float.lit_1_3, SFmul. cbn [xorb].
  set (C := 5854679515581645%positive).
  set (M := (mz * C)%positive).
  assert (Z.pos M = Z.pos mz * Z.pos C) as HM by reflexivity.
  (* the product has 105 or 106 digits *)
  pose proof (digits2_bounds M) as [HMlo HMhi].
  set (dM := Z.pos (digits2_pos M)) in *.
  assert (105 <= dM <= 106) as HdM.
  { assert (2 ^ 104 <= Z.pos M < 2 ^ 106) as [H1 H2].
    { rewrite HM. unfold C.
      change (2 ^ 104) with (2 ^ 52 * 2 ^ 52).
      change (2 ^ 106) with (2 ^ 53 * 2 ^ 53).
      change (2 ^ 52) with 4503599627370496 in *.
      change (2 ^ 53) with 9007199254740992 in *. nia. }
    assert (104 < dM) by (apply (Z.pow_lt_mono_r_iff 2); lia).
    assert (dM - 1 < 106) by (apply (Z.pow_lt_mono_r_iff 2); lia).
    lia. }
  destruct (round_aux_to_int M (d - 53 + -52)) as (m1 & [Hm1lo Hm1hi] & ->);
    fold dM; try lia.
  set (n := dM - 53) in *.
  set (s := - (d - 53 + -52 + n)).
  set (X := 2 ^ (53 - d)) in *.
  set (Y := 2 ^ n) in *.
  set (S := 2 ^ s).
  assert (32 <= X) as HX.
  { unfold X. change 32 with (2 ^ 5). apply Z.pow_le_mono_r; lia. }
  assert (0 < Y <= 2 ^ 53) as HY.
  { unfold Y. split; [apply Z.pow_pos_nonneg; lia|].
    apply Z.pow_le_mono_r; lia. }
  assert (0 < S) as HS by (apply Z.pow_pos_nonneg; unfold s; lia).
  assert (S * Y = 2 ^ 52 * X) as HSY.
  { unfold S, Y, X. rewrite <- !Z.pow_add_r by (unfold s; lia).
    f_equal. unfold s. lia. }
  change (2 ^ 52) with 4503599627370496 in *.
  change (2 ^ 53) with 9007199254740992 in *.
  pose proof (Z.mul_div_le (Z.pos M) Y (proj1 HY)) as Hq1.
  pose proof (Z.mul_succ_div_gt (Z.pos M) Y (proj1 HY)) as Hq2.
  set (q := Z.pos M / Y) in *.
  pose proof (Z.mul_div_le (13 * Z.pos p) 10 eq_refl) as HN1.
  pose proof (Z.mul_succ_div_gt (13 * Z.pos p) 10 eq_refl) as HN2.
  set (N := 13 * Z.pos p / 10) in *.
  set (A := Z.pos mz) in *. set (W := Z.pos p) in *.
  assert (Z.pos C = 5854679515581645) as HC by reflexivity.
  rewrite HM, HC in Hq1, Hq2.
  (* N * S <= q and q + 1 < (N + 1) * S *)
  assert (N * S <= q) as Hlow.
  { assert (N * (S * Y) <= A * 5854679515581645) by (rewrite HSY; nia).
    nia. }
  assert (q + 1 < (N + 1) * S) as Hup.
  { assert (A * 5854679515581645 + Y < (N + 1) * (S * Y)) by (rewrite HSY; nia).
    nia. }
  change (Z.pos M / 2 ^ (Z.pos (digits2_pos M) - 53)) with q in Hm1lo, Hm1hi.
  symmetry. apply Z.div_unique_pos with (r := m1 - N * S); lia.
Qed.

(* ================================================================== *)
(** ** Statistics *)

(** C9.  For an existing [.pdf] document, [get_pdf_stats] reports as word
    count the number of white-space delimited words of the joined text of
    the analysed pages, and as token estimate the integer part of 1.3 times
    the word count: the binary64 product [word_count * 1.3] truncated by
    [int] equals [floor(13 * word_count / 10)] for every word count below
    [2^48], which bounds any text that fits in memory. *)
Theorem stats_token_estimate (fs : FS) (input_path : string)
    (num_pages : option Z) (doc : Document) :
  Fs.lookup fs input_path = Some (File doc) ->
  Str.lower (Path.suffix input_path) = ".pdf" ->
  exists st,
    get_pdf_stats fs input_path num_pages = Ok st
    /\ word_count st
       = Z.of_nat (List.length
                     (split (concat_texts
                               (leading_text doc (requested_pages doc num_pages)))))
    /\ (word_count st < 2 ^ 48 -> token_estimate st = 13 * word_count st / 10).
Proof.
  intros Hfile Hsuffix. unfold get_pdf_stats, check_input.
  rewrite (lookup_exists _ _ _ Hfile), Hsuffix. cbn [negb String.eqb bind].
  replace (negb (".pdf" =? ".pdf")%string) with false by reflexivity.
  cbn [bind]. unfold Fs.read_pdf. rewrite Hfile. cbn [bind].
  assert (match num_pages with
          | Some n => Z.min n (Z.of_nat (List.length doc))
          | None => Z.of_nat (List.length doc)
          end
          = Z.min (requested_pages doc num_pages) (Z.of_nat (List.length doc)))
    as -> by (destruct num_pages; cbn; lia).
  rewrite read_text_leading. cbn [bind].
  eexists. split; [reflexivity|]. cbn [word_count token_estimate].
  split; [reflexivity|].
  intros Hwc. apply token_estimate_floor. lia.
Qed.

Lemma stats_token_estimate_witness :
  let text := concat_texts (List.repeat "word " 1000) in
  let fs := [("docs/long.pdf", File [mkPage "p1" (Some text)])] in
  exists st,
    get_pdf_stats fs "docs/long.pdf" None = Ok st
    /\ word_count st = 1000
    /\ token_estimate st = 1300.
Proof.
  intros text fs.
  destruct (stats_token_estimate fs "docs/long.pdf" None
              [mkPage "p1" (Some text)] eq_refl eq_refl)
    as (st & Hrun & Hwc & Htok).
  assert (word_count st = 1000) as Hwc' by (rewrite Hwc; vm_compute; reflexivity).
  exists st. split; [exact Hrun|]. split; [exact Hwc'|].
  rewrite Htok; rewrite Hwc'; reflexivity.
Defined.

(* ================================================================== *)
(** ** Decimal numerals read back *)

Lemma of_uint_acc_digits (d : Decimal.uint) :
  forall acc : positive,
    Z.pos (Pos.of_uint_acc d acc)
    = int_of_digits_acc (Z.pos acc) (NilEmpty.string_of_uint d).
Proof.
  induction d; intros acc; cbn [Pos.of_uint_acc NilEmpty.string_of_uint];
    try reflexivity;
    rewrite IHd; cbn [int_of_digits_acc]; f_equal;
    simpl (Z.of_nat (nat_of_ascii _)); lia.
Qed.

Lemma of_uint_digits (d : Decimal.uint) :
  Z.of_N (Pos.of_uint d) = int_of_digits (NilEmpty.string_of_uint d).
Proof.
  unfold int_of_digits.
  induction d; cbn [Pos.of_uint NilEmpty.string_of_uint int_of_digits_acc];
    try reflexivity; try exact IHd;
    cbn [Z.of_N]; rewrite of_uint_acc_digits; reflexivity.
Qed.

Lemma int_of_numeral (n : N) :
  int_of_digits (NilZero.string_of_uint (N.to_uint n)) = Z.of_N n.
Proof.
  rewrite <- (Unsigned.of_to n) at 2. unfold N.of_uint.
  rewrite of_uint_digits.
  destruct (N.to_uint n); reflexivity.
Qed.

Lemma int_of_zeros (k : nat) (s : string) :
  int_of_digits (Str.repeat "0" k ++ s) = int_of_digits s.
Proof.
  unfold int_of_digits. induction k as [|k IH]; cbn; auto.
Qed.

(** Reading a printed ordinal gives the ordinal back. *)
Lemma int_of_format_04d (n : Z) : 0 <= n -> int_of_digits (format_04d n) = n.
Proof.
  intros Hn. unfold format_04d. replace (n <? 0) with false by lia.
  rewrite int_of_zeros, int_of_numeral. lia.
Qed.

Lemma str_of_int_numeral (n : Z) :
  0 <= n -> str_of_int n = NilZero.string_of_uint (N.to_uint (Z.to_N n)).
Proof.
  intros Hn. unfold str_of_int. destruct n as [|p|p]; try reflexivity. lia.
Qed.

Lemma int_of_str_of_int (n : Z) : 0 <= n -> int_of_digits (str_of_int n) = n.
Proof.
  intros Hn. rewrite str_of_int_numeral, int_of_numeral by lia. lia.
Qed.

Lemma nilzero_not_empty (d : Decimal.uint) :
  NilZero.string_of_uint d <> EmptyString.
Proof.
  destruct d; discriminate.
Qed.

Lemma format_04d_digits (n : Z) :
  0 <= n -> Str.all Str.is_digit (format_04d n) = true.
Proof.
  intros Hn. unfold format_04d. replace (n <? 0) with false by lia.
  rewrite all_app, all_repeat by reflexivity. apply nilzero_digits.
Qed.

Lemma format_04d_not_empty (n : Z) : format_04d n <> EmptyString.
Proof.
  unfold format_04d.
  destruct (n <? 0); [discriminate|].
  generalize (nilzero_not_empty (N.to_uint (Z.abs_N n))).
  destruct (NilZero.string_of_uint _) as [|c s]; [contradiction|].
  intros _. destruct (Str.repeat "0" _); discriminate.
Qed.

(** ** The accepted range tokens *)

Lemma span_digits_spec (s : string) :
  let '(g, r) := Re.span_digits s in
  s = g ++ r /\ Str.all Str.is_digit g = true
  /\ match r with
     | String c _ => Str.is_digit c = false
     | EmptyString => True
     end.
Proof.
  induction s as [|c s IH]; cbn [Re.span_digits]; [now repeat split|].
  destruct (Str.is_digit c) eqn:Hc.
  - destruct (Re.span_digits s) as [g r]. destruct IH as (-> & Hg & Hr).
    cbn [String.append Str.all]. now rewrite Hc, Hg.
  - now repeat split.
Qed.

Lemma at_end_iff (s : string) :
  Re.at_end s = true <-> s = EmptyString \/ s = String Re.line_feed EmptyString.
Proof.
  destruct s as [|c [|c' s]]; cbn.
  - intuition.
  - rewrite Ascii.eqb_eq. split.
    + intros ->. now right.
    + intros [H|[= ->]]; [discriminate | reflexivity].
  - split; [discriminate | intros [H|H]; discriminate].
Qed.

Lemma int_of_digits_acc_nonneg (s : string) :
  forall acc, 0 <= acc -> Str.all Str.is_digit s = true ->
              0 <= int_of_digits_acc acc s.
Proof.
  induction s as [|c s IH]; intros acc Hacc; cbn [int_of_digits_acc Str.all];
    [auto|].
  rewrite andb_true_iff. intros [Hc Hs]. apply IH; [|exact Hs].
  unfold Str.is_digit in Hc. apply andb_true_iff in Hc as [H1 H2].
  apply Nat.leb_le in H1, H2. lia.
Qed.



Lemma parse_range_str_of_int (a b : Z) :
  0 <= a -> 0 <= b ->
  parse_range (str_of_int a ++ "-" ++ str_of_int b) = Ok (a, b).
Proof.
  intros Ha Hb. rewrite parse_range_digits.
  - now rewrite !int_of_str_of_int.
  - rewrite str_of_int_numeral by lia. apply nilzero_not_empty.
  - rewrite str_of_int_numeral by lia. apply nilzero_not_empty.
  - rewrite str_of_int_numeral by lia. apply nilzero_digits.
  - rewrite str_of_int_numeral by lia. apply nilzero_digits.
Qed.



(* ================================================================== *)
(** ** Names and paths, continued *)

Lemma append_inv_head (s a b : string) : s ++ a = s ++ b -> a = b.
Proof.
  induction s as [|c s IH]; cbn; [auto|]. intros [= H]. auto.
Qed.

Lemma join_inj (d a b : string) : Path.join d a = Path.join d b -> a = b.
Proof.
  apply append_inv_head.
Qed.

(** Two ordinals that are not negative never share a page file name. *)
Lemma page_file_name_inj (stem : string) (n m : Z) :
  0 <= n -> 0 <= m ->
  page_file_name stem n = page_file_name stem m -> n = m.
Proof.
  intros Hn Hm H. unfold page_file_name in H.
  apply append_inv_head in H. apply (append_inv_head "-page-") in H.
  assert (Re.span_digits (format_04d n ++ ".pdf") = (format_04d n, ".pdf")) as H1
    by (apply span_digits_app; [now apply format_04d_digits | reflexivity]).
  assert (Re.span_digits (format_04d m ++ ".pdf") = (format_04d m, ".pdf")) as H2
    by (apply span_digits_app; [now apply format_04d_digits | reflexivity]).
  rewrite H, H2 in H1. injection H1 as H1.
  rewrite <- (int_of_format_04d n Hn), <- (int_of_format_04d m Hm). now rewrite H1.
Qed.

Lemma rfind_all (c : ascii) (s : string) :
  Str.all (fun a => negb (Ascii.eqb a c)) s = true -> Str.rfind c s = None.
Proof.
  induction s as [|a s IH]; cbn; [reflexivity|].
  rewrite andb_true_iff, negb_true_iff. intros [Ha Hs].
  now rewrite (IH Hs), Ha.
Qed.

Lemma rfind_last (c : ascii) (pre s : string) :
  Str.all (fun a => negb (Ascii.eqb a c)) s = true ->
  Str.rfind c (pre ++ String c s) = Some (String.length pre).
Proof.
  intros Hs. induction pre as [|a pre IH]; cbn.
  - now rewrite (rfind_all _ _ Hs), Ascii.eqb_refl.
  - now rewrite IH.
Qed.

Lemma drop_app_cons (pre s : string) (c : ascii) :
  Str.drop (S (String.length pre)) (pre ++ String c s) = s.
Proof.
  induction pre as [|a pre IH]; cbn; [now destruct s | exact IH].
Qed.

(** The name of [d / nm] is [nm]. *)
Lemma name_join (d nm : string) :
  Str.all not_sep nm = true -> Path.name (Path.join d nm) = nm.
Proof.
  intros Hnm. unfold Path.name, Path.join, Path.dir_prefix.
  destruct (String.eqb d "."); [|destruct (String.eqb d "/")].
  - cbn [String.append]. now rewrite (rfind_all _ _ Hnm).
  - change ("/" ++ nm) with (EmptyString ++ String Path.sep nm).
    rewrite (rfind_last _ _ _ Hnm). apply drop_app_cons.
  - rewrite append_assoc. change ("/" ++ nm) with (String Path.sep nm).
    rewrite (rfind_last _ _ _ Hnm). apply drop_app_cons.
Qed.

Lemma take_drop (i : nat) (s : string) : Str.take i s ++ Str.drop i s = s.
Proof.
  revert s. induction i as [|i IH]; intros [|c s]; cbn; try reflexivity.
  now rewrite IH.
Qed.

(** A name is its stem followed by its suffix. *)
Lemma name_stem_suffix (p : string) : Path.name p = Path.stem p ++ Path.suffix p.
Proof.
  unfold Path.stem, Path.suffix. destruct (Path.suffix_index (Path.name p)).
  - now rewrite take_drop.
  - now rewrite append_nil_r.
Qed.

Lemma rfind_char (c : ascii) (s : string) (i : nat) :
  Str.rfind c s = Some i -> exists t, Str.drop i s = String c t.
Proof.
  revert i. induction s as [|a s IH]; intros i; cbn; [discriminate|].
  destruct (Str.rfind c s) as [j|].
  - intros [= <-]. cbn. now apply IH.
  - destruct (Ascii.eqb_spec a c) as [->|]; [|discriminate].
    intros [= <-]. cbn. eauto.
Qed.

(** A suffix that is not empty starts with a dot. *)
Lemma suffix_dot (p : string) :
  Path.suffix p <> EmptyString -> exists t, Path.suffix p = String "." t.
Proof.
  unfold Path.suffix, Path.suffix_index.
  destruct (Str.rfind "."%char (Path.name p)) as [i|] eqn:Hi; [|contradiction].
  destruct (_ && _)%bool; [|contradiction].
  intros _. eapply rfind_char, Hi.
Qed.

(** No page file written by a split is the document being split. *)
Lemma input_not_page_file (input_path d : string) (n : Z) :
  Path.suffix input_path <> EmptyString ->
  input_path <> Path.join d (page_file_name (Path.stem input_path) n).
Proof.
  intros Hsuf Heq. destruct (suffix_dot _ Hsuf) as (t & Ht).
  apply (f_equal Path.name) in Heq.
  rewrite name_join in Heq.
  - rewrite name_stem_suffix, Ht in Heq. unfold page_file_name in Heq.
    apply append_inv_head in Heq. discriminate.
  - apply page_file_name_chars;
      [exact digit_or_minus_not_sep | reflexivity | reflexivity
      | apply stem_no_sep].
Qed.

(** ** Contents after writing *)

Lemma lookup_put_other (fs : FS) (p q : string) (n : node) :
  q <> p -> Fs.lookup (Fs.put fs p n) q = Fs.lookup fs q.
Proof.
  intros Hne. induction fs as [|[r m] fs IH]; cbn.
  - destruct (String.eqb_spec p q); [congruence | reflexivity].
  - destruct (String.eqb_spec r p) as [->|Hrp]; cbn.
    + destruct (String.eqb_spec p q); [congruence | reflexivity].
    + destruct (String.eqb r q); [reflexivity | exact IH].
Qed.

(** Writing again what a path already holds changes nothing. *)
Lemma put_same (fs : FS) (p : string) (n : node) :
  Fs.lookup fs p = Some n -> Fs.put fs p n = fs.
Proof.
  induction fs as [|[q m] fs IH]; cbn; [discriminate|].
  destruct (String.eqb q p).
  - now intros [= ->].
  - intros H. now rewrite IH.
Qed.

Lemma split_loop_contents (doc : Document) (d stem : string) (idxs : list Z) :
  forall (acc : list string) (fs : FS),
    (forall i, In i idxs -> 0 <= i < Z.of_nat (List.length doc)) ->
    NoDup idxs ->
    exists fs',
      split_loop doc d stem idxs acc fs
      = (fs', Ok (acc ++ map (fun i => Path.join d (page_file_name stem (i + 1)))
                            idxs)%list)
      /\ (forall i, In i idxs ->
            exists pg, nth_error doc (Z.to_nat i) = Some pg
                       /\ Fs.lookup fs' (Path.join d (page_file_name stem (i + 1)))
                          = Some (File [pg]))
      /\ (forall q,
            (forall i, In i idxs -> q <> Path.join d (page_file_name stem (i + 1))) ->
            Fs.lookup fs' q = Fs.lookup fs q)
      /\ (forall q, has fs q -> has fs' q).
Proof.
  induction idxs as [|i idxs IH]; intros acc fs Hin Hnd; cbn [split_loop map].
  - exists fs. rewrite app_nil_r. split; [reflexivity|].
    split; [intros i [] | split; [reflexivity | auto]].
  - destruct (page_at_ok doc i) as (pg & Hpg & Hnth); [apply Hin; now left|].
    unfold bindM at 1, lift at 1. rewrite Hpg.
    unfold bindM at 1, write_pdf at 1.
    inversion Hnd as [|? ? Hnotin Hnd']; subst.
    destruct (IH (acc ++ [Path.join d (page_file_name stem (i + 1))])%list
                 (Fs.write_pdf fs (Path.join d (page_file_name stem (i + 1))) [pg]))
      as (fs' & Hrun & Hnew & Hold & Hkeep);
      [intros j Hj; apply Hin; now right | exact Hnd'|].
    exists fs'. rewrite Hrun, <- app_assoc. split; [reflexivity|].
    split; [|split; [|intros q Hq; apply Hkeep, has_put, Hq]].
    + intros j [<-|Hj]; [|now apply Hnew].
      exists pg. split; [exact Hnth|].
      rewrite Hold; [apply lookup_put_same|].
      intros k Hk Heq. apply join_inj, page_file_name_inj in Heq.
      * assert (i = k) by lia. subst. contradiction.
      * specialize (Hin i (or_introl eq_refl)). lia.
      * specialize (Hin k (or_intror Hk)). lia.
    + intros q Hq. rewrite Hold by (intros k Hk; apply Hq; now right).
      apply lookup_put_other. apply Hq. now left.
Qed.

Lemma range_NoDup (lo hi : Z) : NoDup (range lo hi).
Proof.
  unfold range. apply Injective_map_NoDup; [|apply seq_NoDup].
  intros a b H. lia.
Qed.

(** [split_pdf] on a document that passes the two guards. *)
Lemma split_pdf_run (fs : FS) (input_path output_dir : string) (doc : Document) :
  Fs.lookup fs input_path = Some (File doc) ->
  Str.lower (Path.suffix input_path) = ".pdf" ->
  split_pdf input_path output_dir fs
  = split_loop doc output_dir (Path.stem input_path)
      (range 0 (Z.of_nat (List.length doc))) [] (Fs.mkdir fs output_dir).
Proof.
  intros Hfile Hsuffix. unfold split_pdf, check_input.
  rewrite (lookup_exists _ _ _ Hfile), Hsuffix. cbn.
  unfold Fs.read_pdf. now rewrite (lookup_mkdir _ _ _ _ Hfile).
Qed.

Lemma suffix_pdf_not_empty (p : string) :
  Str.lower (Path.suffix p) = ".pdf" -> Path.suffix p <> EmptyString.
Proof.
  intros H Hempty. rewrite Hempty in H. discriminate.
Qed.

(** The state a split leaves behind. *)
Lemma split_pdf_contents (fs : FS) (input_path output_dir : string)
    (doc : Document) :
  Fs.lookup fs input_path = Some (File doc) ->
  Str.lower (Path.suffix input_path) = ".pdf" ->
  let name n := Path.join output_dir (page_file_name (Path.stem input_path) n) in
  exists fs',
    split_pdf input_path output_dir fs
    = (fs', Ok (map name (range 1 (Z.of_nat (List.length doc) + 1))))
    /\ (forall k pg, nth_error doc k = Some pg ->
          Fs.lookup fs' (name (Z.of_nat k + 1)) = Some (File [pg]))
    /\ (forall q, (forall n, 1 <= n <= Z.of_nat (List.length doc) -> q <> name n) ->
          Fs.lookup fs' q = Fs.lookup (Fs.mkdir fs output_dir) q)
    /\ Fs.exists_ fs' output_dir = true.
Proof.
  intros Hfile Hsuffix name.
  rewrite (split_pdf_run _ _ _ _ Hfile Hsuffix).
  destruct (split_loop_contents doc output_dir (Path.stem input_path)
              (range 0 (Z.of_nat (List.length doc))) [] (Fs.mkdir fs output_dir))
    as (fs' & Hrun & Hnew & Hold & Hkeep).
  { intros i Hi. apply in_range in Hi. lia. }
  { apply range_NoDup. }
  exists fs'. split; [|split; [|split]].
  4:{ pose proof (exists_mkdir fs output_dir) as Hex.
      apply exists_iff in Hex. apply exists_iff.
      destruct Hex as [H|[H|H]]; auto. }
  - rewrite Hrun. cbn [app]. now rewrite (range_shift name).
  - intros k pg Hk.
    assert (k < List.length doc)%nat
      by (apply nth_error_Some; congruence).
    destruct (Hnew (Z.of_nat k)) as (pg' & Hpg' & Hlook).
    { apply in_range. lia. }
    rewrite Nat2Z.id in Hpg'. assert (pg' = pg) as -> by congruence.
    exact Hlook.
  - intros q Hq. apply Hold. intros i Hi. apply in_range in Hi.
    apply Hq. lia.
Qed.

(* ================================================================== *)
(** ** What a split leaves on disk *)



(** ** Splitting twice *)

Lemma split_loop_again (doc : Document) (d stem : string) (idxs : list Z) :
  forall (acc : list string) (fs : FS),
    (forall i, In i idxs ->
       exists pg, page_at doc i = Ok pg
                  /\ Fs.lookup fs (Path.join d (page_file_name stem (i + 1)))
                     = Some (File [pg])) ->
    split_loop doc d stem idxs acc fs
    = (fs, Ok (acc ++ map (fun i => Path.join d (page_file_name stem (i + 1)))
                         idxs)%list).
Proof.
  induction idxs as [|i idxs IH]; intros acc fs H; cbn [split_loop map].
  - now rewrite app_nil_r.
  - destruct (H i (or_introl eq_refl)) as (pg & Hpg & Hlook).
    unfold bindM at 1, lift at 1. rewrite Hpg.
    unfold bindM at 1, write_pdf at 1, Fs.write_pdf.
    rewrite (put_same _ _ _ Hlook), IH, <- app_assoc; [reflexivity|].
    intros j Hj. apply H. now right.
Qed.

Lemma mkdir_exists (fs : FS) (d : string) :
  Fs.exists_ fs d = true -> Fs.mkdir fs d = fs.
Proof.
  intros H. unfold Fs.mkdir. destruct (String.length d); cbn; now rewrite H.
Qed.



(* ================================================================== *)
(** ** Merging what a split wrote *)

Lemma skipn_nth_error {A : Type} (l : list A) (s : nat) (x : A) :
  nth_error l s = Some x -> skipn s l = x :: skipn (S s) l.
Proof.
  revert l. induction s as [|s IH]; intros [|a l]; cbn; try discriminate.
  - now intros [= ->].
  - intros H. now apply IH.
Qed.

Lemma Forall2_slice {A B : Type} (R : A -> B -> Prop) (f : nat -> A)
    (l : list B) (n : nat) :
  forall s,
    (s + n <= List.length l)%nat ->
    (forall k x, nth_error l k = Some x -> R (f k) x) ->
    Forall2 R (map f (seq s n)) (firstn n (skipn s l)).
Proof.
  induction n as [|n IH]; intros s Hlen HR; cbn [seq map firstn]; [constructor|].
  destruct (nth_error l s) as [x|] eqn:Hx.
  - rewrite (skipn_nth_error _ _ _ Hx). cbn [firstn]. constructor.
    + now apply HR.
    + apply IH; [lia | exact HR].
  - apply nth_error_None in Hx. lia.
Qed.

Lemma seq_from (s n : nat) : seq s n = map (fun i => (s + i)%nat) (seq 0 n).
Proof.
  revert s. induction n as [|n IH]; intros s; cbn [seq map]; [reflexivity|].
  f_equal; [lia|].
  rewrite (IH (S s)), <- (seq_shift n 0), map_map.
  apply map_ext. intros i. lia.
Qed.

(** The page files of the ordinals [a..b] carry the pages [a..b]. *)
Lemma first_pages_slice (fs : FS) (doc : Document) (name : Z -> string)
    (a b : Z) :
  1 <= a <= b + 1 -> b <= Z.of_nat (List.length doc) ->
  (forall k pg, nth_error doc k = Some pg ->
     Fs.lookup fs (name (Z.of_nat k + 1)) = Some (File [pg])) ->
  first_pages fs (map name (range a (b + 1)))
    (firstn (Z.to_nat (b + 1 - a)) (skipn (Z.to_nat (a - 1)) doc)).
Proof.
  intros Ha Hb Hnew. unfold first_pages, range.
  rewrite map_map.
  rewrite (map_ext _ (fun i => name (Z.of_nat (Z.to_nat (a - 1) + i) + 1))).
  2:{ intros i. f_equal. lia. }
  rewrite <- (map_map (fun i => (Z.to_nat (a - 1) + i)%nat)
                      (fun k => name (Z.of_nat k + 1))).
  replace (map (fun i => (Z.to_nat (a - 1) + i)%nat) (seq 0 (Z.to_nat (b + 1 - a))))
    with (seq (Z.to_nat (a - 1)) (Z.to_nat (b + 1 - a))).
  - apply Forall2_slice; [lia|].
    intros k pg Hk. exists []. now apply Hnew.
  - apply seq_from.
Qed.

(** [merge_pages] on a list of documents with a first page each. *)
Lemma merge_pages_ok (fs : FS) (output_path : string) (page_files : list string)
    (firsts : list Page) :
  page_files <> [] ->
  first_pages fs page_files firsts ->
  merge_pages output_path page_files fs
  = (Fs.write_pdf (Fs.mkdir fs (Path.parent output_path)) output_path firsts,
     Ok output_path).
Proof.
  intros Hne Hfirst. destruct page_files as [|p ps]; [contradiction|].
  rewrite merge_pages_cons. cbn zeta.
  now rewrite (merge_loop_ok _ _ _ (first_pages_mkdir _ _ _ _ Hfirst)).
Qed.

Lemma range_names_not_empty (name : Z -> string) (doc : Document) :
  doc <> [] -> map name (range 1 (Z.of_nat (List.length doc) + 1)) <> [].
Proof.
  intros Hdoc. destruct doc; [contradiction|].
  rewrite range_cons by (cbn [List.length]; lia). discriminate.
Qed.



(* ================================================================== *)
(** ** What resolution returns *)

Lemma strip_prefix_some (p s r : string) :
  Str.strip_prefix p s = Some r -> s = p ++ r.
Proof.
  revert s. induction p as [|a p IH]; intros s; cbn.
  - now intros [= ->].
  - destruct s as [|b s]; [discriminate|].
    destruct (Ascii.eqb_spec a b) as [->|]; [|discriminate].
    intros H. now rewrite (IH _ H).
Qed.

Lemma child_of_some (d p nm : string) :
  Path.child_of d p = Some nm -> p = Path.join d nm.
Proof.
  unfold Path.child_of, Path.join.
  destruct (Str.strip_prefix (Path.dir_prefix d) p) as [r|] eqn:Hr; [|discriminate].
  apply strip_prefix_some in Hr. subst p.
  destruct r as [|c r]; [discriminate|].
  destruct (Str.all _ _); [|discriminate]. now intros [= <-].
Qed.

Lemma listdir_sound (fs : FS) (d nm : string) :
  In nm (Fs.listdir fs d) -> has fs (Path.join d nm).
Proof.
  unfold has. induction fs as [|[p n] fs IH]; cbn; [tauto|].
  destruct (Path.child_of d p) as [nm'|] eqn:Hc.
  - intros [->|H]; [left; now apply child_of_some | right; auto].
  - intros H. right. auto.
Qed.

(** Every match of a pattern is an entry of the directory whose name
    matches. *)
Lemma glob_sound (fs : FS) (d pattern p : string) :
  In p (glob fs d pattern) ->
  exists nm, p = Path.join d nm /\ Fnmatch.fnmatch pattern nm = true
             /\ has fs p.
Proof.
  unfold glob. rewrite in_map_iff. intros (nm & <- & Hin).
  apply filter_In in Hin as [Hin Hm].
  exists nm. split; [reflexivity|]. split; [exact Hm|].
  now apply listdir_sound.
Qed.

Lemma Forall2_map_hd (fs : FS) (d : string) (stem : option string) (nums : list Z) :
  (forall n, In n nums -> glob fs d (page_pattern stem n) <> []) ->
  Forall2 (resolved fs d stem) nums
    (map (fun n => hd EmptyString (glob fs d (page_pattern stem n))) nums).
Proof.
  induction nums as [|n nums IH]; intros H; cbn [map]; constructor.
  - specialize (H n (or_introl eq_refl)).
    destruct (glob fs d (page_pattern stem n)) as [|p rest] eqn:Hg; [contradiction|].
    cbn [hd].
    destruct (glob_sound fs d (page_pattern stem n) p) as (nm & Hp & Hm & Hhas).
    { rewrite Hg. now left. }
    exists nm. split; [exact Hp|]. split; [exact Hm|]. now apply lookup_has.
  - apply IH. intros k Hk. apply H. now right.
Qed.



(** ** Resolution with a plain stem *)

Lemma resolve_plain (fs : FS) (pages_dir stem : string) (start end_ : Z) :
  Fs.exists_ fs pages_dir = true ->
  stem <> EmptyString ->
  Str.all plain_char stem = true ->
  Str.all not_sep stem = true ->
  (forall n, start <= n <= end_ ->
     has fs (Path.join pages_dir (page_file_name stem n))) ->
  get_pages_from_dir fs pages_dir start end_ (Some stem)
  = Ok (map (fun n => Path.join pages_dir (page_file_name stem n))
            (range start (end_ + 1))).
Proof.
  intros Hex Hne Hplain Hsep Hfiles. unfold get_pages_from_dir.
  rewrite Hex. cbn [negb].
  apply (pages_loop_ok fs pages_dir (Some stem) _ []).
  intros n Hn. apply in_range in Hn.
  assert (page_pattern (Some stem) n = page_file_name stem n) as ->
    by (destruct stem; [contradiction | reflexivity]).
  apply glob_plain.
  - apply page_file_name_chars;
      [exact digit_or_minus_plain | reflexivity | reflexivity | exact Hplain].
  - destruct stem; [contradiction | discriminate].
  - apply page_file_name_chars;
      [exact digit_or_minus_not_sep | reflexivity | reflexivity | exact Hsep].
  - apply Hfiles. lia.
Qed.

(** X7.  With a stem that holds neither a pattern character nor a separator,
    resolution returns the files [<stem>-page-<ordinal>.pdf] of the base
    directory, whatever else the directory holds and in whatever order it is
    enumerated, as soon as these files exist. *)
Theorem resolve_plain_stem (fs : FS) (pages_dir stem : string) (start end_ : Z) :
  Fs.exists_ fs pages_dir = true ->
  stem <> EmptyString ->
  Str.all plain_char stem = true ->
  Str.all not_sep stem = true ->
  (forall n, start <= n <= end_ ->
     exists nd, Fs.lookup fs (Path.join pages_dir (page_file_name stem n)) = Some nd) ->
  forall fs',
    Permutation fs fs' ->
    get_pages_from_dir fs' pages_dir start end_ (Some stem)
    = Ok (map (fun n => Path.join pages_dir
                          (stem ++ "-page-" ++ format_04d n ++ ".pdf"))
              (range start (end_ + 1))).
Proof.
  intros Hex Hne Hplain Hsep Hfiles fs' HP.
  apply resolve_plain; auto.
  - now rewrite <- (exists_perm fs fs' _ HP).
  - intros n Hn. apply (has_perm fs fs' _ HP), lookup_has, Hfiles, Hn.
Qed.

Lemma resolve_plain_stem_witness :
  let fs := [("pages", Dir);
             ("pages/b-page-0002.pdf", File []);
             ("pages/a-page-0003.pdf", File []);
             ("pages/a-page-0002.pdf", File [])] in
  get_pages_from_dir fs "pages" 2 3 (Some "a")
  = Ok ["pages/a-page-0002.pdf"; "pages/a-page-0003.pdf"].
Proof.
  intros fs.
  apply (resolve_plain_stem fs "pages" "a" 2 3); try reflexivity.
  - discriminate.
  - intros n Hn. assert (n = 2 \/ n = 3) as [-> | ->] by lia; eexists; reflexivity.
Defined.

(** ** From a document to a section of it *)

Lemma section_of_split (fs : FS) (input_path output_dir output_path : string)
    (doc : Document) (a b : Z) :
  Fs.lookup fs input_path = Some (File doc) ->
  Str.lower (Path.suffix input_path) = ".pdf" ->
  Str.all plain_char (Path.stem input_path) = true ->
  1 <= a <= b -> b <= Z.of_nat (List.length doc) ->
  let stem := Path.stem input_path in
  let section := map (fun n => Path.join output_dir (page_file_name stem n))
                     (range a (b + 1)) in
  exists fs1 names fs2,
    split_pdf input_path output_dir fs = (fs1, Ok names)
    /\ get_pages_from_dir fs1 output_dir a b (Some stem) = Ok section
    /\ merge_pages output_path section fs1 = (fs2, Ok output_path)
    /\ Fs.lookup fs2 output_path
       = Some (File (firstn (Z.to_nat (b + 1 - a)) (skipn (Z.to_nat (a - 1)) doc))).
Proof.
  intros Hfile Hsuffix Hplain Hab Hb stem section.
  destruct (split_pdf_contents fs input_path output_dir doc Hfile Hsuffix)
    as (fs1 & Hrun & Hnew & _ & Hdir).
  fold stem in Hrun, Hnew.
  exists fs1. eexists. eexists. split; [exact Hrun|].
  pose proof (first_pages_slice fs1 doc
                (fun n => Path.join output_dir (page_file_name stem n))
                a b ltac:(lia) Hb Hnew) as Hfirst.
  split; [|split].
  - destruct (stem_not_empty input_path Hsuffix) as (c & s & Hstem).
    fold stem in Hstem.
    apply resolve_plain; auto.
    + rewrite Hstem. discriminate.
    + apply stem_no_sep.
    + intros n Hn.
      destruct (nth_error doc (Z.to_nat (n - 1))) as [pg|] eqn:Hpg.
      * apply lookup_has. exists (File [pg]).
        replace n with (Z.of_nat (Z.to_nat (n - 1)) + 1) by lia.
        now apply Hnew.
      * apply nth_error_None in Hpg. lia.
  - apply merge_pages_ok; [|exact Hfirst].
    unfold section. rewrite range_cons by lia. discriminate.
  - apply lookup_put_same.
Qed.



(* ================================================================== *)
(** ** When a merge succeeds, and what a failed merge leaves *)

Lemma lookup_app_file (fs : FS) (d p : string) (doc : Document) :
  Fs.lookup (fs ++ [(d, Dir)])%list p = Some (File doc) ->
  Fs.lookup fs p = Some (File doc).
Proof.
  induction fs as [|[q m] fs IH]; cbn.
  - destruct (String.eqb d p); discriminate.
  - destruct (String.eqb q p); auto.
Qed.

Lemma lookup_mkdir_file (fs : FS) (d p : string) (doc : Document) :
  Fs.lookup (Fs.mkdir fs d) p = Some (File doc) ->
  Fs.lookup fs p = Some (File doc).
Proof.
  unfold Fs.mkdir. generalize (String.length d) as fuel. intros fuel. revert d.
  induction fuel as [|fuel IH]; intros d; cbn;
    destruct (Fs.exists_ fs d); auto; intros H; apply lookup_app_file in H; auto.
  eapply IH, H.
Qed.

(** A successful loop has found a first page in every file. *)
Lemma merge_loop_inv (fs : FS) (page_files : list string) :
  forall acc fs' writer,
    merge_loop page_files acc fs = (fs', Ok writer) ->
    exists firsts,
      first_pages fs page_files firsts /\ writer = (acc ++ firsts)%list.
Proof.
  induction page_files as [|p ps IH]; intros acc fs' writer.
  - cbn. intros [= <- <-]. exists []. split; [constructor | now rewrite app_nil_r].
  - rewrite merge_loop_cons.
    destruct (Fs.exists_ fs p); [|discriminate].
    unfold Fs.read_pdf. destruct (Fs.lookup fs p) as [[|doc]|] eqn:Hp;
      try discriminate.
    destruct doc as [|pg rest].
    + cbn. discriminate.
    + rewrite page_at_first. intros H.
      apply IH in H as (firsts & Hfirst & ->).
      exists (pg :: firsts). split; [|now rewrite <- app_assoc].
      constructor; [eauto | exact Hfirst].
Qed.

Lemma first_pages_mkdir_inv (fs : FS) (d : string) (ps : list string)
    (pgs : list Page) :
  first_pages (Fs.mkdir fs d) ps pgs -> first_pages fs ps pgs.
Proof.
  unfold first_pages. apply Forall2_impl.
  intros p pg (rest & H). exists rest. eapply lookup_mkdir_file, H.
Qed.



(** ** Merging a resolved list *)

Lemma merge_loop_found (fs : FS) (page_files : list string) :
  (forall p, In p page_files -> exists nd, Fs.lookup fs p = Some nd) ->
  forall acc msg, snd (merge_loop page_files acc fs) <> Err (FileNotFoundError msg).
Proof.
  induction page_files as [|p ps IH]; intros Hall acc msg; [discriminate|].
  rewrite merge_loop_cons.
  destruct (Hall p (or_introl eq_refl)) as (nd & Hp).
  rewrite (lookup_exists _ _ _ Hp). unfold Fs.read_pdf. rewrite Hp.
  destruct nd as [|doc]; [discriminate|].
  unfold page_at.
  destruct ((0 <? 0)%Z); (destruct (_ && _)%bool; [|discriminate]);
    (destruct (nth_error doc _);
     [apply IH; intros q Hq; apply Hall; now right | discriminate]).
Qed.

Lemma Forall2_in_r {A B : Type} (R : A -> B -> Prop) (l : list A) (l' : list B)
    (y : B) :
  Forall2 R l l' -> In y l' -> exists x, In x l /\ R x y.
Proof.
  induction 1 as [|a b l l' Hab _ IH]; cbn; [tauto|].
  intros [<-|Hy]; [eauto|]. destruct (IH Hy) as (x & Hx & Hxy). eauto.
Qed.



(* ================================================================== *)
(** ** The guards of the tools *)

(** X11.  Each of the four tools that take a document raises
    [FileNotFoundError] for a path that does not exist, whatever its
    extension, and [ValueError] for an existing path whose extension is not
    [.pdf] in any letter case; in both cases nothing is created or
    written. *)
Theorem guards_reject (fs : FS) (input_path output_dir : string) (n : Z)
    (m : option Z) :
  let e :=
    if Fs.exists_ fs input_path then
      ValueError ("Input must be a PDF file, got: " ++ Path.suffix input_path)
    else FileNotFoundError ("Input file not found: " ++ input_path) in
  Fs.exists_ fs input_path = false
  \/ Str.lower (Path.suffix input_path) <> ".pdf" ->
  split_pdf input_path output_dir fs = (fs, Err e)
  /\ extract_first_pages input_path output_dir n fs = (fs, Err e)
  /\ compute_content_hash fs input_path n = Err e
  /\ get_pdf_stats fs input_path m = Err e.
Proof.
  intros e H.
  assert (check_input fs input_path = Err e) as Hcheck.
  { unfold check_input, e. destruct (Fs.exists_ fs input_path); [|reflexivity].
    destruct H as [H|H]; [discriminate|].
    destruct (String.eqb_spec (Str.lower (Path.suffix input_path)) ".pdf");
      [contradiction | reflexivity]. }
  unfold split_pdf, extract_first_pages, compute_content_hash, get_pdf_stats.
  rewrite Hcheck. repeat split; reflexivity.
Qed.

Lemma guards_reject_witness :
  let fs := [("in/notes.txt", File [])] in
  split_pdf "in/notes.txt" "tmp/pages" fs
  = (fs, Err (ValueError "Input must be a PDF file, got: .txt"))
  /\ split_pdf "in/gone.txt" "tmp/pages" fs
     = (fs, Err (FileNotFoundError "Input file not found: in/gone.txt")).
Proof.
  intros fs. split.
  - apply (guards_reject fs "in/notes.txt" "tmp/pages" 0 None).
    right. discriminate.
  - apply (guards_reject fs "in/gone.txt" "tmp/pages" 0 None).
    left. reflexivity.
Defined.

(* ================================================================== *)
(** ** Extracting a prefix *)

Lemma suffix_join_name (d p : string) :
  Path.suffix (Path.join d (Path.name p)) = Path.suffix p.
Proof.
  unfold Path.suffix. now rewrite name_join by apply name_no_sep.
Qed.



(** ** The hash of a prefix *)

Lemma compute_content_hash_run (fs : FS) (p : string) (n : Z) (doc : Document) :
  Fs.lookup fs p = Some (File doc) ->
  Str.lower (Path.suffix p) = ".pdf" ->
  compute_content_hash fs p n
  = Ok (Sha256.hexdigest (encode (concat_texts (leading_text doc n)))).
Proof.
  intros Hfile Hsuffix. unfold compute_content_hash, check_input.
  rewrite (lookup_exists _ _ _ Hfile), Hsuffix. cbn.
  unfold Fs.read_pdf. rewrite Hfile. cbn [bind].
  now rewrite read_text_leading.
Qed.

Lemma leading_text_firstn (doc : Document) (n : Z) :
  leading_text
    (firstn (Z.to_nat (Z.min n (Z.of_nat (List.length doc)))) doc) n
  = leading_text doc n.
Proof.
  unfold leading_text. f_equal.
  rewrite firstn_firstn. f_equal.
  rewrite length_firstn. lia.
Qed.



(** ** Documents without text *)

Lemma concat_texts_empty (texts : list string) :
  Forall (fun t => t = EmptyString) texts -> concat_texts texts = EmptyString.
Proof.
  induction 1 as [|t texts -> _ IH]; cbn; auto.
Qed.

(** X14.  Every existing [.pdf] document hashes to the digest of the empty
    message when its leading pages yield no text (scanned pages) or when the
    page count is zero or negative: such documents all look like
    duplicates. *)
Theorem hash_without_text (fs : FS) (input_path : string) (num_pages : Z)
    (doc : Document) :
  Fs.lookup fs input_path = Some (File doc) ->
  Str.lower (Path.suffix input_path) = ".pdf" ->
  num_pages <= 0
  \/ Forall (fun pg => page_text pg = None \/ page_text pg = Some EmptyString)
            (firstn (Z.to_nat num_pages) doc) ->
  compute_content_hash fs input_path num_pages = Ok empty_digest.
Proof.
  intros Hfile Hsuffix H.
  rewrite (compute_content_hash_run _ _ _ _ Hfile Hsuffix).
  rewrite concat_texts_empty; [reflexivity|].
  unfold leading_text. apply Forall_map.
  destruct H as [H|H].
  - replace (Z.to_nat (Z.min num_pages (Z.of_nat (List.length doc)))) with O by lia.
    constructor.
  - assert (Forall (fun pg => text_or_empty pg = EmptyString)
                   (firstn (Z.to_nat num_pages) doc)) as H'.
    { eapply Forall_impl; [|exact H].
      intros pg [Hpg|Hpg]; unfold text_or_empty; now rewrite Hpg. }
    destruct (Z.le_ge_cases num_pages (Z.of_nat (List.length doc))) as [Hle|Hge].
    + now replace (Z.min num_pages (Z.of_nat (List.length doc))) with num_pages by lia.
    + replace (Z.min num_pages (Z.of_nat (List.length doc)))
        with (Z.of_nat (List.length doc)) by lia.
      rewrite Nat2Z.id, firstn_all.
      rewrite firstn_all2 in H' by lia. exact H'.
Qed.

Lemma hash_without_text_witness :
  compute_content_hash [("scan.pdf", File [mkPage "img1" None; mkPage "img2" (Some "")])]
    "scan.pdf" 3
  = Ok empty_digest
  /\ compute_content_hash [("text.pdf", File [mkPage "p" (Some "words")])] "text.pdf" 0
     = Ok empty_digest.
Proof.
  split.
  - apply (hash_without_text _ "scan.pdf" 3
             [mkPage "img1" None; mkPage "img2" (Some "")]); try reflexivity.
    right. cbn.
    constructor; [left; reflexivity|].
    constructor; [right; reflexivity | constructor].
  - apply (hash_without_text _ "text.pdf" 0 [mkPage "p" (Some "words")]);
      try reflexivity.
    left. lia.
Defined.

(* ================================================================== *)
(** ** The counts reported by the statistics *)

(** X15.  For an existing [.pdf] document: the total is the number of pages;
    without a page count every page is analysed; a page count is reported
    as analysed even when it is negative, in which case (and for zero) no
    word and no token is counted; and the counts are never negative. *)
Theorem stats_counts (fs : FS) (input_path : string) (num_pages : option Z)
    (doc : Document) :
  Fs.lookup fs input_path = Some (File doc) ->
  Str.lower (Path.suffix input_path) = ".pdf" ->
  exists st,
    get_pdf_stats fs input_path num_pages = Ok st
    /\ total_pages st = Z.of_nat (List.length doc)
    /\ pages_analyzed st <= total_pages st
    /\ (num_pages = None -> pages_analyzed st = total_pages st)
    /\ (forall n, num_pages = Some n -> n <= 0 ->
          pages_analyzed st = n /\ word_count st = 0 /\ token_estimate st = 0)
    /\ 0 <= word_count st.
Proof.
  intros Hfile Hsuffix. unfold get_pdf_stats, check_input.
  rewrite (lookup_exists _ _ _ Hfile), Hsuffix. cbn [negb String.eqb bind].
  replace (negb (".pdf" =? ".pdf")%string) with false by reflexivity.
  cbn [bind]. unfold Fs.read_pdf. rewrite Hfile. cbn [bind].
  assert (match num_pages with
          | Some n => Z.min n (Z.of_nat (List.length doc))
          | None => Z.of_nat (List.length doc)
          end
          = Z.min (requested_pages doc num_pages) (Z.of_nat (List.length doc)))
    as Hmin by (destruct num_pages; cbn; lia).
  rewrite Hmin. rewrite read_text_leading. cbn [bind].
  eexists. split; [reflexivity|].
  cbn [total_pages pages_analyzed word_count token_estimate].
  split; [reflexivity|]. split; [lia|].
  split; [intros ->; cbn [requested_pages]; lia|]. split; [|lia].
  intros n -> Hn. cbn [requested_pages]. split; [lia|].
  unfold leading_text.
  replace (Z.to_nat (Z.min n (Z.of_nat (List.length doc)))) with O by lia.
  cbn. auto.
Qed.

Lemma stats_counts_witness :
  exists st,
    get_pdf_stats [("d.pdf", File [mkPage "p" (Some "some words here")])]
      "d.pdf" (Some (-2)) = Ok st
    /\ pages_analyzed st = -2 /\ word_count st = 0.
Proof.
  destruct (stats_counts [("d.pdf", File [mkPage "p" (Some "some words here")])]
              "d.pdf" (Some (-2)) [mkPage "p" (Some "some words here")]
              eq_refl eq_refl) as (st & Hrun & _ & _ & _ & Hneg & _).
  exists st. split; [exact Hrun|].
  destruct (Hneg (-2) eq_refl ltac:(lia)) as (H1 & H2 & _). auto.
Defined.

(* ================================================================== *)
(** ** The split command *)

Lemma last_map_range (f : Z -> string) (lo hi : Z) (dflt : string) :
  lo < hi -> last (map f (range lo hi)) dflt = f (hi - 1).
Proof.
  intros H. unfold range. rewrite map_map.
  replace (Z.to_nat (hi - lo)) with (S (Z.to_nat (hi - lo - 1))) by lia.
  rewrite seq_S, map_app. cbn [map]. rewrite last_last. f_equal. lia.
Qed.



(* ================================================================== *)
(** ** The extract command *)



(* ================================================================== *)
(** ** The merge command *)





(* ================================================================== *)
(** ** Words across page boundaries *)

Lemma append_char_not_empty (cur : string) (c : ascii) :
  cur ++ String c EmptyString <> EmptyString.
Proof.
  destruct cur; discriminate.
Qed.

(** Only the emptiness of the run being read matters for the count. *)
Lemma split_ws_count_cur (s : string) :
  forall cur cur',
    cur <> EmptyString -> cur' <> EmptyString ->
    List.length (split_ws cur s) = List.length (split_ws cur' s).
Proof.
  induction s as [|c s IH]; intros cur cur' Hc Hc'; cbn [split_ws].
  - destruct cur, cur'; try contradiction; reflexivity.
  - destruct (is_space c).
    + destruct cur, cur'; try contradiction; reflexivity.
    + apply IH; apply append_char_not_empty.
Qed.

Lemma split_ws_count_open (s cur : string) :
  cur <> EmptyString ->
  (List.length (split_ws EmptyString s) <= List.length (split_ws cur s)
   <= List.length (split_ws EmptyString s) + 1)%nat.
Proof.
  intros Hc. destruct s as [|c s]; cbn [split_ws].
  - destruct cur; [contradiction | cbn; lia].
  - destruct (is_space c).
    + destruct cur; [contradiction | cbn; lia].
    + rewrite (split_ws_count_cur s (cur ++ String c EmptyString)
                 (EmptyString ++ String c EmptyString));
        [lia | apply append_char_not_empty | discriminate].
Qed.

Lemma split_ws_app (s t : string) :
  forall cur,
    (List.length (split_ws cur (s ++ t))
     <= List.length (split_ws cur s) + List.length (split_ws EmptyString t)
     <= List.length (split_ws cur (s ++ t)) + 1)%nat.
Proof.
  induction s as [|c s IH]; intros cur; cbn [String.append split_ws].
  - destruct cur as [|a cur]; [cbn; lia|].
    pose proof (split_ws_count_open t (String a cur) ltac:(discriminate)).
    cbn [List.length]. lia.
  - destruct (is_space c).
    + destruct cur; cbn [List.length]; specialize (IH EmptyString); lia.
    + apply IH.
Qed.

Lemma words_of_joined (texts : list string) :
  (List.length (split (concat_texts texts)) <= words_per_page texts
   <= List.length (split (concat_texts texts)) + List.length texts)%nat.
Proof.
  unfold words_per_page.
  induction texts as [|t texts IH].
  - cbn. lia.
  - change (concat_texts (t :: texts)) with (t ++ concat_texts texts).
    cbn [map list_sum List.length].
    pose proof (split_ws_app t (concat_texts texts) EmptyString) as H.
    unfold split in *. unfold list_sum in *. cbn [fold_right]. lia.
Qed.

(** [get_pdf_stats] on a document that passes the two guards. *)
Lemma get_pdf_stats_run (fs : FS) (input_path : string) (num_pages : option Z)
    (doc : Document) :
  Fs.lookup fs input_path = Some (File doc) ->
  Str.lower (Path.suffix input_path) = ".pdf" ->
  let k := requested_pages doc num_pages in
  let wc := Z.of_nat (List.length (split (concat_texts (leading_text doc k)))) in
  get_pdf_stats fs input_path num_pages
  = Ok (mkStats (Z.of_nat (List.length doc))
                (Z.min k (Z.of_nat (List.length doc)))
                wc
                (Float.to_int (Float.mul (Float.of_int wc) Float.lit_1_3))).
Proof.
  intros Hfile Hsuffix k wc. unfold get_pdf_stats, check_input.
  rewrite (lookup_exists _ _ _ Hfile), Hsuffix. cbn [negb String.eqb bind].
  replace (negb (".pdf" =? ".pdf")%string) with false by reflexivity.
  cbn [bind]. unfold Fs.read_pdf. rewrite Hfile. cbn [bind].
  assert (match num_pages with
          | Some n => Z.min n (Z.of_nat (List.length doc))
          | None => Z.of_nat (List.length doc)
          end
          = Z.min k (Z.of_nat (List.length doc)))
    as -> by (unfold k; destruct num_pages; cbn; lia).
  now rewrite read_text_leading.
Qed.

(** X20.  The pages are joined with nothing between them before the words are
    counted, so the last word of a page and the first word of the next
    count as one: the word count reported is at most the sum of the word
    counts of the analysed pages, and falls short of it by at most one word
    per page. *)
Theorem stats_words_across_pages (fs : FS) (input_path : string)
    (num_pages : option Z) (doc : Document) :
  Fs.lookup fs input_path = Some (File doc) ->
  Str.lower (Path.suffix input_path) = ".pdf" ->
  let texts := leading_text doc (requested_pages doc num_pages) in
  exists st,
    get_pdf_stats fs input_path num_pages = Ok st
    /\ word_count st <= Z.of_nat (words_per_page texts)
       <= word_count st + Z.of_nat (List.length texts).
Proof.
  intros Hfile Hsuffix texts.
  rewrite (get_pdf_stats_run _ _ _ _ Hfile Hsuffix).
  eexists. split; [reflexivity|]. cbn [word_count].
  pose proof (words_of_joined texts). fold texts. lia.
Qed.

Lemma stats_words_across_pages_witness :
  exists st,
    get_pdf_stats
      [("d.pdf", File [mkPage "p1" (Some "end of page"); mkPage "p2" (Some "one more")])]
      "d.pdf" None = Ok st
    /\ word_count st = 4.
Proof.
  destruct (stats_words_across_pages
              [("d.pdf", File [mkPage "p1" (Some "end of page");
                               mkPage "p2" (Some "one more")])]
              "d.pdf" None
              [mkPage "p1" (Some "end of page"); mkPage "p2" (Some "one more")]
              eq_refl eq_refl) as (st & Hrun & _).
  exists st. split; [exact Hrun|].
  vm_compute in Hrun. injection Hrun as <-. reflexivity.
Defined.

(* ================================================================== *)
(** ** The hash and the page boundaries *)

(** X21.  The content hash sees the joined text only: two documents whose
    leading pages join to the same text have the same hash, even when the
    text is cut into pages differently. *)
Theorem hash_ignores_page_boundaries (fs fs' : FS) (p p' : string) (n : Z)
    (doc doc' : Document) :
  Fs.lookup fs p = Some (File doc) ->
  Str.lower (Path.suffix p) = ".pdf" ->
  Fs.lookup fs' p' = Some (File doc') ->
  Str.lower (Path.suffix p') = ".pdf" ->
  concat_texts (leading_text doc n) = concat_texts (leading_text doc' n) ->
  compute_content_hash fs p n = compute_content_hash fs' p' n.
Proof.
  intros Hfile Hsuffix Hfile' Hsuffix' Heq.
  rewrite (compute_content_hash_run _ _ _ _ Hfile Hsuffix).
  rewrite (compute_content_hash_run _ _ _ _ Hfile' Hsuffix').
  now rewrite Heq.
Qed.

Lemma hash_ignores_page_boundaries_witness :
  compute_content_hash
    [("a.pdf", File [mkPage "a1" (Some "annual re"); mkPage "a2" (Some "port")])]
    "a.pdf" 3
  = compute_content_hash
      [("b.pdf", File [mkPage "b1" (Some "annual"); mkPage "b2" (Some " report")])]
      "b.pdf" 3.
Proof.
  apply (hash_ignores_page_boundaries _ _ "a.pdf" "b.pdf" 3
           [mkPage "a1" (Some "annual re"); mkPage "a2" (Some "port")]
           [mkPage "b1" (Some "annual"); mkPage "b2" (Some " report")]);
    reflexivity.
Defined.

(* ================================================================== *)
(** ** Resolution without a stem *)

Lemma match_star_lits (lit nm : string) :
  Fnmatch.match_toks (Fnmatch.TStar :: lits lit) nm = true
  <-> exists pre, nm = pre ++ lit.
Proof.
  induction nm as [|c nm IH].
  - cbn [Fnmatch.match_toks]. rewrite match_lits, orb_false_r, String.eqb_eq.
    split.
    + intros ->. now exists EmptyString.
    + intros ([|a pre] & H); [auto | discriminate].
  - change (Fnmatch.match_toks (Fnmatch.TStar :: lits lit) (String c nm))
      with (Fnmatch.match_toks (lits lit) (String c nm)
            || Fnmatch.match_toks (Fnmatch.TStar :: lits lit) nm)%bool.
    rewrite orb_true_iff, match_lits, String.eqb_eq, IH. split.
    + intros [->|(pre & ->)]; [now exists EmptyString | now exists (String c pre)].
    + intros ([|a pre] & H); [left; auto|].
      injection H as -> ->. right. eauto.
Qed.

Lemma translate_star (r : string) :
  Fnmatch.translate (String "*" r) = Fnmatch.TStar :: Fnmatch.translate r.
Proof.
  reflexivity.
Qed.

(** The wildcard pattern of an ordinal matches the names that end with
    [-page-<ordinal>.pdf], an empty stem included. *)
Lemma fnmatch_wildcard (n : Z) (nm : string) :
  Fnmatch.fnmatch (page_pattern None n) nm = true
  <-> exists pre, nm = pre ++ "-page-" ++ format_04d n ++ ".pdf".
Proof.
  change (page_pattern None n)
    with (String "*" ("-page-" ++ format_04d n ++ ".pdf")).
  unfold Fnmatch.fnmatch. rewrite translate_star.
  unfold Fnmatch.translate. rewrite translate_plain.
  - apply match_star_lits.
  - apply (page_file_name_chars plain_char EmptyString n);
      [exact digit_or_minus_plain | reflexivity | reflexivity | reflexivity].
  - lia.
Qed.

(** X22.  Without a stem filter, every path returned is an entry of the base
    directory whose name ends with [-page-<ordinal>.pdf] for its ordinal,
    whatever stem precedes. *)
Theorem resolve_wildcard_names (fs : FS) (pages_dir : string) (start end_ : Z)
    (l : list string) :
  get_pages_from_dir fs pages_dir start end_ None = Ok l ->
  Forall2
    (fun n p =>
       exists stem,
         p = Path.join pages_dir (stem ++ "-page-" ++ format_04d n ++ ".pdf")
         /\ exists nd, Fs.lookup fs p = Some nd)
    (range start (end_ + 1)) l.
Proof.
  unfold get_pages_from_dir.
  destruct (Fs.exists_ fs pages_dir); [|discriminate]. cbn [negb].
  intros H. apply pages_loop_hd in H as [-> H]. cbn [app].
  eapply Forall2_impl; [|apply (Forall2_map_hd fs pages_dir None _ H)].
  intros n p (nm & -> & Hm & Hnd).
  apply fnmatch_wildcard in Hm as (pre & ->). eauto.
Qed.

Lemma resolve_wildcard_names_witness :
  let fs := [("pages", Dir); ("pages/x-page-0007.pdf", File [])] in
  Forall2
    (fun n p =>
       exists stem,
         p = Path.join "pages" (stem ++ "-page-" ++ format_04d n ++ ".pdf")
         /\ exists nd, Fs.lookup fs p = Some nd)
    (range 7 (7 + 1)) ["pages/x-page-0007.pdf"].
Proof.
  intros fs. apply (resolve_wildcard_names fs "pages" 7 7). reflexivity.
Defined.

(* ================================================================== *)
(** ** The size for the reader *)

(** X23.  The sizes printed by [pdf_stats.py]: bytes below 1024; whole
    kibibytes and mebibytes (below [2^53] bytes) with a zero decimal; and a
    size within 51 bytes below one mebibyte is shown as [1024.0 KB], the
    kilobyte branch being chosen before the rounding. *)
Theorem file_size_human_units (n k : Z) :
  (0 <= n < 1024 -> file_size_human n = str_of_int n ++ " B")
  /\ (1 <= k < 1024 -> file_size_human (1024 * k) = str_of_int k ++ ".0 KB")
  /\ (1 <= k < 2 ^ 33 ->
      file_size_human (1024 * 1024 * k) = str_of_int k ++ ".0 MB")
  /\ (1048525 <= n < 1048576 -> file_size_human n = "1024.0 KB").
Proof.
  assert (forall u m, 0 < u -> (u * m) / u = m /\ (u * m) mod u = 0) as Hexact.
  { intros u m Hu. split.
    - rewrite Z.mul_comm. now apply Z.div_mul, Z.neq_sym, Z.lt_neq.
    - rewrite Z.mul_comm. apply Z.mod_mul. lia. }
  unfold file_size_human, format_1f, nearest_tenths.
  split; [|split; [|split]].
  - intros Hn. now replace (n <? 1024) with true by lia.
  - intros Hk.
    replace (1024 * k <? 1024) with false by lia.
    replace (1024 * k <? 1024 * 1024) with true by lia.
    replace (10 * (1024 * k)) with (1024 * (10 * k)) by lia.
    destruct (Hexact 1024 (10 * k) ltac:(lia)) as [-> ->].
    change (2 * 0 <? 1024) with true. cbv iota.
    destruct (Hexact 10 k ltac:(lia)) as [-> ->].
    rewrite append_assoc. reflexivity.
  - intros Hk.
    replace (1024 * 1024 * k <? 1024) with false by lia.
    replace (1024 * 1024 * k <? 1024 * 1024) with false by lia.
    replace (10 * (1024 * 1024 * k)) with (1024 * 1024 * (10 * k)) by lia.
    destruct (Hexact (1024 * 1024) (10 * k) ltac:(lia)) as [-> ->].
    change (2 * 0 <? 1024 * 1024) with true. cbv iota.
    destruct (Hexact 10 k ltac:(lia)) as [-> ->].
    rewrite append_assoc. reflexivity.
  - intros Hn.
    replace (n <? 1024) with false by lia.
    replace (n <? 1024 * 1024) with true by lia.
    assert (10 * n = 1024 * 10239 + (10 * n - 10484736)) as Hn' by lia.
    assert ((10 * n) / 1024 = 10239) as ->
      by (symmetry; apply Z.div_unique with (r := 10 * n - 10484736); lia).
    assert ((10 * n) mod 1024 = 10 * n - 10484736) as ->
      by (symmetry; apply Z.mod_unique with (q := 10239); lia).
    replace (2 * (10 * n - 10484736) <? 1024) with false by lia.
    replace (1024 <? 2 * (10 * n - 10484736)) with true by lia.
    reflexivity.
Qed.

Lemma file_size_human_units_witness :
  file_size_human 1000 = "1000 B"
  /\ file_size_human 2048 = "2.0 KB"
  /\ file_size_human 1048570 = "1024.0 KB".
Proof.
  split; [|split].
  - apply (proj1 (file_size_human_units 1000 1)). lia.
  - apply (proj1 (proj2 (file_size_human_units 0 2))). lia.
  - apply (proj2 (proj2 (proj2 (file_size_human_units 1048570 1)))). lia.
Defined.
